(** * Hamlib frontend core ([src/common/rig.c]): a shallow embedding

    The file embeds the capability registry, the error table, the handle
    life cycle ([rig_init], [rig_open], [rig_close], [rig_cleanup]), the
    generic accessors ([rig_set_freq] ... [rig_get_vfo], [rig_has_func]),
    the prober ([rig_probe]) and the capability lookup ([rig_get_caps]).

    C objects live in an explicit [World] (heap of [RIG] structs, open file
    descriptors, standard output); a C function is a function from the
    world to an [outcome]: either a returned value with the new world, or
    [Fault] where the C program has undefined behaviour that stops it (a
    null or dangling pointer dereferenced, a table indexed out of bounds). *)

From Stdlib Require Import ZArith Lia Bool.
From Stdlib Require Import Floats.SpecFloat.
From stdpp Require Import gmap strings list.

Local Open Scope Z_scope.

(** ** C scalar types *)

Module CTypes.

(** [int] is 32 bits wide, two's complement. *)
Definition INT_BITS : Z := 32.

(** [unsigned long] on an LP64 target (Linux on x86-64, for one). *)
Definition ULONG_BITS : Z := 64.

Definition is_ulong (x : Z) : Prop := 0 <= x < 2 ^ ULONG_BITS.

(** Conversion of an integer value to [int]: the value is reduced modulo
    [2^32] into the range of [int] (what gcc and clang do for a value
    that does not fit). *)
Definition to_int (x : Z) : Z :=
  let r := x mod 2 ^ INT_BITS in
  if r <? 2 ^ (INT_BITS - 1) then r else r - 2 ^ INT_BITS.

(** [long long] is 64 bits wide. *)
Definition LLONG_MIN : Z := - 2 ^ 63.
Definition LLONG_MAX : Z := 2 ^ 63 - 1.

(** [double] is IEEE 754 binary64: 53 bits of precision, [emax = 1024]. *)
Definition double : Type := spec_float.
Definition prec : Z := 53.
Definition emax : Z := 1024.

Definition double_zero : double := S754_zero false.

(** Integer to [double], rounding to nearest, ties to even. *)
Definition double_of_longlong (n : Z) : double :=
  binary_normalize prec emax n 0 false.

Definition double_mul (x y : double) : double := SFmul prec emax x y.

(** [x != y] on doubles (true when either is a NaN). *)
Definition double_ne (x y : double) : bool := negb (SFeqb x y).

(** [double] to [long long]: the fractional part is discarded; the
    conversion is undefined ([None]) for NaN, infinities and values whose
    integral part is out of range. *)
Definition longlong_of_double (d : double) : option Z :=
  match d with
  | S754_zero _ => Some 0
  | S754_finite s m e =>
      let mag := if 0 <=? e then Z.pos m * 2 ^ e else Z.pos m / 2 ^ (- e) in
      let v := if s then - mag else mag in
      if (LLONG_MIN <=? v) && (v <=? LLONG_MAX) then Some v else None
  | S754_infinity _ | S754_nan => None
  end.

(** The cast [(long long) d] as the machine runs it. Where the conversion is
    defined the result is its value; where it is not, nothing traps and the
    program goes on with what the conversion instruction leaves, which on
    x86-64 is [LLONG_MIN]. *)
Definition longlong_cast (d : double) : Z :=
  match longlong_of_double d with
  | Some v => v
  | None => LLONG_MIN
  end.

(** Modelled from the spec: [freq_t], which [rig.h] declares and the sources
    do not include. The spec's frequencies are whole numbers of hertz
    (14000000, 14280000) and [rig_set_freq] casts the compensated product to
    [freq_t]: a signed 64-bit integer, [long long]. The values of [rmode_t]
    and [vfo_t] are only passed on, as integers. *)
Definition freq_t : Type := Z.
Definition rmode_t : Type := Z.
Definition vfo_t : Type := Z.

(** The constant [1.02]: the double nearest to 102/100, which is the
    correctly rounded quotient of the doubles 102 and 100. *)
Definition double_1_02 : double :=
  SFdiv prec emax (double_of_longlong 102) (double_of_longlong 100).

(** [strncpy (dst, src, n)] into a zeroed buffer, read back as a string:
    the first [n] characters of [src]. *)
Fixpoint strncpy (src : string) (n : nat) : string :=
  match n, src with
  | S n', String c s' => String c (strncpy s' n')
  | _, _ => EmptyString
  end.

End CTypes.

Import CTypes.

(** ** Error taxonomy *)

(** Modelled from the spec: the result codes of [rig.h] (absent from the
    sources), in the order of the spec's error taxonomy, which is the order
    of [rigerror_table]. *)
Definition RIG_OK : Z := 0.
Definition RIG_EINVAL : Z := 1.
Definition RIG_ECONF : Z := 2.
Definition RIG_ENOMEM : Z := 3.
Definition RIG_ENIMPL : Z := 4.
Definition RIG_ETIMEOUT : Z := 5.
Definition RIG_EIO : Z := 6.
Definition RIG_EINTERNAL : Z := 7.
Definition RIG_EPROTO : Z := 8.
Definition RIG_ERJCTED : Z := 9.
Definition RIG_ETRUNC : Z := 10.

Definition rigerror_table : list string :=
  [ "Command completed sucessfully";
    "Invalid parameter";
    "Invalid configuration";
    "Memory shortage";
    "Feature not implemented";
    "Communication timed out";
    "IO error";
    "Internal Hamlib error";
    "Protocol error";
    "Command rejected by the rig";
    "Command performed, but arg truncated, result not guaranteed" ]%string.

(** [rigerror_table[errnum]]: the table is indexed as it is, and an index
    outside it is undefined behaviour ([None]). *)
Definition rigerror (errnum : Z) : option string :=
  if errnum <? 0 then None else rigerror_table !! Z.to_nat errnum.

(** ** Capability descriptors, device state, handles *)

Definition loc : Type := positive.

(** [struct rig_caps], over the type [W] of worlds its functions act on.
    An optional function is a function pointer that may be [NULL]; the
    functions get the handle's address (and for the getters the address of
    the caller's output object). *)
Module Caps.
Record rig_caps (W R : Type) : Type := mk {
  rig_model : Z;
  model_name : string;
  serial_rate_min : Z;
  serial_rate_max : Z;
  serial_data_bits : Z;
  serial_stop_bits : Z;
  serial_parity : Z;
  serial_handshake : Z;
  timeout : Z;
  retry : Z;
  has_func : Z;
  ptt_type : Z;
  rig_init : option (loc -> W -> R);
  rig_open : option (loc -> W -> R);
  rig_close : option (loc -> W -> R);
  rig_cleanup : option (loc -> W -> R);
  rig_probe : option (loc -> W -> R);
  set_freq : option (loc -> Z -> W -> R);
  get_freq : option (loc -> loc -> W -> R);
  set_mode : option (loc -> Z -> W -> R);
  get_mode : option (loc -> loc -> W -> R);
  set_vfo : option (loc -> Z -> W -> R);
  get_vfo : option (loc -> loc -> W -> R)
}.
Arguments mk {W R}.
Arguments rig_model {W R}.
Arguments model_name {W R}.
Arguments serial_rate_min {W R}.
Arguments serial_rate_max {W R}.
Arguments serial_data_bits {W R}.
Arguments serial_stop_bits {W R}.
Arguments serial_parity {W R}.
Arguments serial_handshake {W R}.
Arguments timeout {W R}.
Arguments retry {W R}.
Arguments has_func {W R}.
Arguments ptt_type {W R}.
Arguments rig_init {W R}.
Arguments rig_open {W R}.
Arguments rig_close {W R}.
Arguments rig_cleanup {W R}.
Arguments rig_probe {W R}.
Arguments set_freq {W R}.
Arguments get_freq {W R}.
Arguments set_mode {W R}.
Arguments get_mode {W R}.
Arguments set_vfo {W R}.
Arguments get_vfo {W R}.
End Caps.

(** [struct rig_state]. *)
Module State.
Record rig_state : Type := mk {
  port_type : Z;
  rig_path : string;
  serial_rate : Z;
  serial_data_bits : Z;
  serial_stop_bits : Z;
  serial_parity : Z;
  serial_handshake : Z;
  timeout : Z;
  retry : Z;
  ptt_type : Z;
  vfo_comp : double;
  fd : Z
}.

(** What [calloc] leaves: every member zero. *)
Definition zero : rig_state :=
  mk 0 EmptyString 0 0 0 0 0 0 0 0 double_zero 0.

Definition set_port_type (v : Z) (s : rig_state) : rig_state :=
  mk v (rig_path s) (serial_rate s) (serial_data_bits s) (serial_stop_bits s)
     (serial_parity s) (serial_handshake s) (timeout s) (retry s) (ptt_type s)
     (vfo_comp s) (fd s).
Definition set_rig_path (v : string) (s : rig_state) : rig_state :=
  mk (port_type s) v (serial_rate s) (serial_data_bits s) (serial_stop_bits s)
     (serial_parity s) (serial_handshake s) (timeout s) (retry s) (ptt_type s)
     (vfo_comp s) (fd s).
Definition set_vfo_comp (v : double) (s : rig_state) : rig_state :=
  mk (port_type s) (rig_path s) (serial_rate s) (serial_data_bits s)
     (serial_stop_bits s) (serial_parity s) (serial_handshake s) (timeout s)
     (retry s) (ptt_type s) v (fd s).
Definition set_fd (v : Z) (s : rig_state) : rig_state :=
  mk (port_type s) (rig_path s) (serial_rate s) (serial_data_bits s)
     (serial_stop_bits s) (serial_parity s) (serial_handshake s) (timeout s)
     (retry s) (ptt_type s) (vfo_comp s) v.
End State.

(** [RIG]: [caps] is a pointer to a descriptor in static storage, [None]
    for [NULL], otherwise the position of the descriptor in [rig_base]. *)
Record RIG : Type := mkRIG {
  caps : option nat;
  state : State.rig_state
}.

(** ** The world *)

(** One call of [printf]: the format as the source writes it, and its one
    argument ([%s] or [%u]). *)
Inductive printed : Type :=
| Printf_s (format : string) (arg : string)
| Printf_u (format : string) (arg : Z).

Record World : Type := mkWorld {
  heap : gmap loc RIG;        (* the RIG objects that are allocated *)
  next_loc : loc;             (* the address calloc hands out next *)
  mem_left : nat;             (* how many more objects calloc can serve *)
  open_fds : gset Z;          (* the file descriptors that are open *)
  cells : gmap loc Z;         (* the caller's freq_t, rmode_t, vfo_t objects *)
  stdout : list printed       (* the calls of printf, oldest first *)
}.

Inductive outcome (A : Type) : Type :=
| Ret (a : A) (w : World)
| Fault.
Arguments Ret {A}.
Arguments Fault {A}.

Definition M (A : Type) : Type := World -> outcome A.

Definition ret {A} (a : A) : M A := fun w => Ret a w.
Definition fault {A} : M A := fun _ => Fault.
Definition bind {A B} (m : M A) (k : A -> M B) : M B :=
  fun w => match m w with Ret a w' => k a w' | Fault => Fault end.

Notation "'let*' x ':=' m 'in' k" := (bind m (fun x => k))
  (at level 10, x pattern, m at level 100, k at level 200).
Notation "m ';;' k" := (bind m (fun _ => k))
  (at level 100, k at level 200, right associativity).

Abbreviation caps_t := (Caps.rig_caps World (outcome Z)).

Definition set_heap (h : gmap loc RIG) (w : World) : World :=
  mkWorld h (next_loc w) (mem_left w) (open_fds w) (cells w) (stdout w).

(** Reading and writing [*rig]; a pointer to no live object is a fault. *)
Definition load (l : loc) : M RIG :=
  fun w => match heap w !! l with Some r => Ret r w | None => Fault end.

Definition store (l : loc) (r : RIG) : M unit :=
  fun w => match heap w !! l with
           | Some _ => Ret tt (set_heap (<[l := r]> (heap w)) w)
           | None => Fault
           end.

Definition modify_state (l : loc) (f : State.rig_state -> State.rig_state) : M unit :=
  let* r := load l in store l (mkRIG (caps r) (f (state r))).

(** [calloc (1, sizeof (RIG))]: [NULL] when memory is short, else a fresh
    zeroed object. *)
Definition calloc_RIG : M (option loc) :=
  fun w => match mem_left w with
           | O => Ret None w
           | S n =>
               let l := next_loc w in
               Ret (Some l)
                   (mkWorld (<[l := mkRIG None State.zero]> (heap w)) (Pos.succ l) n
                            (open_fds w) (cells w) (stdout w))
           end.

(** [free (rig)] for a non-null [rig]. *)
Definition free (l : loc) : M unit :=
  fun w => match heap w !! l with
           | Some _ =>
               Ret tt (mkWorld (delete l (heap w)) (next_loc w) (S (mem_left w))
                               (open_fds w) (cells w) (stdout w))
           | None => Fault
           end.

(** [close (fd)] of unistd: the descriptor is open no more; the result
    ([0], or [-1] for a descriptor that was not open) is what the caller
    gets. *)
Definition close (fd : Z) : M Z :=
  fun w => if decide (fd ∈ open_fds w)
           then Ret 0 (mkWorld (heap w) (next_loc w) (mem_left w)
                               (open_fds w ∖ {[fd]}) (cells w) (stdout w))
           else Ret (-1) w.

Definition printf (line : printed) : M unit :=
  fun w => Ret tt (mkWorld (heap w) (next_loc w) (mem_left w) (open_fds w)
                           (cells w) (stdout w ++ [line])).

(** ** The functions of [rig.c] *)

Definition DEFAULT_SERIAL_PORT : string := "/dev/ttyS0".

Section Rig.

(** What [rig.h], [riglist.h] and [serial.h] declare and the sources do not
    include: the port kind [RIG_PORT_SERIAL], the length [FILPATHLEN] of
    [rig_path], the descriptors [rig_base] points to (the entries before
    the terminating [NULL]) and the transport's [serial_open], which gets
    the address of the handle whose state it reads and fills. *)
Variable RIG_PORT_SERIAL : Z.
Variable FILPATHLEN : nat.
Variable rig_base : list caps_t.
Variable serial_open : loc -> M Z.

(** [for (i=0; rig_base[i]; i++) if (rig_base[i]->rig_model == rig_model)
    break;] run on the entries from position [i] on: the value of [i]
    after the loop. *)
Fixpoint lookup_from (rig_model : Z) (l : list caps_t) (i : nat) : nat :=
  match l with
  | [] => i
  | c :: l' =>
      if Caps.rig_model c =? rig_model then i
      else lookup_from rig_model l' (S i)
  end.

(** [rig->caps-> ...]: following a descriptor pointer. *)
Definition deref_caps (p : option nat) : M caps_t :=
  match p with
  | None => fault
  | Some i => match rig_base !! i with Some c => ret c | None => fault end
  end.

(** A backend function called for its effect, its result dropped; nothing
    happens when the pointer is [NULL]. *)
Definition call_hook (f : option (loc -> M Z)) (l : loc) : M unit :=
  match f with
  | Some g => g l ;; ret tt
  | None => ret tt
  end.

Definition rig_init (rig_model : Z) : M (option loc) :=
  let i := lookup_from rig_model rig_base 0 in
  match rig_base !! i with
  | None => ret None
  | Some c =>
      let* rig := calloc_RIG in
      match rig with
      | None => ret None
      | Some l =>
          store l (mkRIG (Some i)
            (State.mk RIG_PORT_SERIAL
               (strncpy DEFAULT_SERIAL_PORT FILPATHLEN)
               (Caps.serial_rate_max c)
               (Caps.serial_data_bits c)
               (Caps.serial_stop_bits c)
               (Caps.serial_parity c)
               (Caps.serial_handshake c)
               (Caps.timeout c)
               (Caps.retry c)
               (Caps.ptt_type c)
               double_zero
               (State.fd State.zero))) ;;
          call_hook (Caps.rig_init c) l ;;
          ret (Some l)
      end
  end.

Definition rig_open (rig : option loc) : M Z :=
  match rig with
  | None => ret (- RIG_EINVAL)
  | Some l =>
      let* r := load l in
      if State.port_type (state r) =? RIG_PORT_SERIAL then
        let* status := serial_open l in
        if status =? 0 then
          let* r' := load l in
          let* c := deref_caps (caps r') in
          call_hook (Caps.rig_open c) l ;;
          ret RIG_OK
        else ret status
      else ret (- RIG_ENIMPL)
  end.

(** [(freq_t)(rig->state.vfo_comp * freq)]: [freq] is converted to
    [double], multiplied, and the product converted back. *)
Definition compensate (vfo_comp : double) (freq : freq_t) : freq_t :=
  longlong_cast (double_mul vfo_comp (double_of_longlong freq)).

Definition rig_set_freq (rig : option loc) (freq : freq_t) : M Z :=
  match rig with
  | None => ret (- RIG_EINVAL)
  | Some l =>
      let* r := load l in
      match caps r with
      | None => ret (- RIG_EINVAL)
      | Some _ =>
          let freq :=
            if double_ne (State.vfo_comp (state r)) double_zero
            then compensate (State.vfo_comp (state r)) freq
            else freq in
          let* c := deref_caps (caps r) in
          match Caps.set_freq c with
          | None => ret (- RIG_ENIMPL)
          | Some f => f l freq
          end
      end
  end.

Definition rig_get_freq (rig : option loc) (freq : option loc) : M Z :=
  match rig with
  | None => ret (- RIG_EINVAL)
  | Some l =>
      let* r := load l in
      match caps r, freq with
      | None, _ | _, None => ret (- RIG_EINVAL)
      | Some _, Some out =>
          let* c := deref_caps (caps r) in
          match Caps.get_freq c with
          | None => ret (- RIG_ENIMPL)
          | Some f => f l out
          end
      end
  end.

Definition rig_set_mode (rig : option loc) (mode : rmode_t) : M Z :=
  match rig with
  | None => ret (- RIG_EINVAL)
  | Some l =>
      let* r := load l in
      match caps r with
      | None => ret (- RIG_EINVAL)
      | Some _ =>
          let* c := deref_caps (caps r) in
          match Caps.set_mode c with
          | None => ret (- RIG_ENIMPL)
          | Some f => f l mode
          end
      end
  end.

Definition rig_get_mode (rig : option loc) (mode : option loc) : M Z :=
  match rig with
  | None => ret (- RIG_EINVAL)
  | Some l =>
      let* r := load l in
      match caps r, mode with
      | None, _ | _, None => ret (- RIG_EINVAL)
      | Some _, Some out =>
          let* c := deref_caps (caps r) in
          match Caps.get_mode c with
          | None => ret (- RIG_ENIMPL)
          | Some f => f l out
          end
      end
  end.

Definition rig_set_vfo (rig : option loc) (vfo : vfo_t) : M Z :=
  match rig with
  | None => ret (- RIG_EINVAL)
  | Some l =>
      let* r := load l in
      match caps r with
      | None => ret (- RIG_EINVAL)
      | Some _ =>
          let* c := deref_caps (caps r) in
          match Caps.set_vfo c with
          | None => ret (- RIG_ENIMPL)
          | Some f => f l vfo
          end
      end
  end.

Definition rig_get_vfo (rig : option loc) (vfo : option loc) : M Z :=
  match rig with
  | None => ret (- RIG_EINVAL)
  | Some l =>
      let* r := load l in
      match caps r, vfo with
      | None, _ | _, None => ret (- RIG_EINVAL)
      | Some _, Some out =>
          let* c := deref_caps (caps r) in
          match Caps.get_vfo c with
          | None => ret (- RIG_ENIMPL)
          | Some f => f l out
          end
      end
  end.

(** The guard is the source's: [rig == NULL || rig->caps], true for a
    handle that has a descriptor. *)
Definition rig_close (rig : option loc) : M Z :=
  match rig with
  | None => ret (- RIG_EINVAL)
  | Some l =>
      let* r := load l in
      match caps r with
      | Some _ => ret (- RIG_EINVAL)
      | None =>
          let* c := deref_caps (caps r) in
          call_hook (Caps.rig_close c) l ;;
          let* r' := load l in
          (if State.fd (state r') =? -1 then ret tt
           else close (State.fd (state r')) ;;
                modify_state l (State.set_fd (-1))) ;;
          ret RIG_OK
      end
  end.

Definition rig_cleanup (rig : option loc) : M Z :=
  match rig with
  | None => ret (- RIG_EINVAL)
  | Some l =>
      let* r := load l in
      match caps r with
      | Some _ => ret (- RIG_EINVAL)
      | None =>
          let* c := deref_caps (caps r) in
          call_hook (Caps.rig_cleanup c) l ;;
          free l ;;
          ret RIG_OK
      end
  end.

(** The loop of [rig_probe] over the entries [l] of [rig_base] still to
    try. [strncpy] writes through [rig] before [rig] is tested. *)
Fixpoint rig_probe_from (port_path : string) (l : list caps_t) : M (option loc) :=
  match l with
  | [] => ret None
  | c :: l' =>
      match Caps.rig_probe c with
      | None => rig_probe_from port_path l'
      | Some probe =>
          let* rig := rig_init (Caps.rig_model c) in
          match rig with
          | None => fault
          | Some p =>
              modify_state p (State.set_rig_path (strncpy port_path FILPATHLEN)) ;;
              rig_open rig ;;
              let* found := probe p in
              if found =? 0 then ret rig
              else rig_close rig ;;
                   rig_cleanup rig ;;
                   rig_probe_from port_path l'
          end
      end
  end.

Definition rig_probe (port_path : string) : M (option loc) :=
  rig_probe_from port_path rig_base.

(** [has_func & func] is an [unsigned long]; the function returns [int]. *)
Definition rig_has_func (rig : option loc) (func : Z) : M Z :=
  match rig with
  | None => ret (-1)
  | Some l =>
      let* r := load l in
      match caps r with
      | None => ret (-1)
      | Some _ =>
          let* c := deref_caps (caps r) in
          ret (to_int (Z.land (Caps.has_func c) func))
      end
  end.

(** The result is the descriptor's position in [rig_base], [None] for
    [NULL]. *)
Definition rig_get_caps (rig_model : Z) : M (option nat) :=
  let i := lookup_from rig_model rig_base 0 in
  match rig_base !! i with
  | None => ret None
  | Some rc =>
      printf (Printf_s "rig = %s \n" (Caps.model_name rc)) ;;
      printf (Printf_u "rig serial_rate_min = = %u \n" (Caps.serial_rate_min rc)) ;;
      printf (Printf_u "rig serial_rate_max = = %u \n" (Caps.serial_rate_max rc)) ;;
      ret (Some i)
  end.

End Rig.

(** The state [rig_init] leaves in a new handle for descriptor [c], before
    the backend's own [rig_init] runs: the assignments of the source, in
    order of the members; [fd] is the zero of [calloc]. *)
Definition init_state (RIG_PORT_SERIAL : Z) (FILPATHLEN : nat) (c : caps_t)
  : State.rig_state :=
  State.mk RIG_PORT_SERIAL
           (strncpy DEFAULT_SERIAL_PORT FILPATHLEN)
           (Caps.serial_rate_max c)
           (Caps.serial_data_bits c)
           (Caps.serial_stop_bits c)
           (Caps.serial_parity c)
           (Caps.serial_handshake c)
           (Caps.timeout c)
           (Caps.retry c)
           (Caps.ptt_type c)
           double_zero
           0.

(** The world once [rig_init] has allocated and filled the handle for the
    descriptor at position [i]. *)
Definition init_world (RIG_PORT_SERIAL : Z) (FILPATHLEN : nat)
    (i : nat) (c : caps_t) (n : nat) (w : World) : World :=
  mkWorld (<[next_loc w := mkRIG (Some i) (init_state RIG_PORT_SERIAL FILPATHLEN c)]>
             (heap w))
          (Pos.succ (next_loc w)) n (open_fds w) (cells w) (stdout w).

(** ** A small registry and transport to run the functions on *)

Module Demo.

Definition set_cells (c : gmap loc Z) (w : World) : World :=
  mkWorld (heap w) (next_loc w) (mem_left w) (open_fds w) c (stdout w).

(** A backend that remembers the frequency it is given, under the
    handle's address. *)
Definition remember_freq (l : loc) (freq : Z) : M Z :=
  fun w => Ret RIG_OK (set_cells (<[l := freq]> (cells w)) w).

(** A backend that writes the remembered frequency to the output. *)
Definition recall_freq (l out : loc) : M Z :=
  fun w => match cells w !! l with
           | Some f => Ret RIG_OK (set_cells (<[out := f]> (cells w)) w)
           | None => Ret (- RIG_EPROTO) w
           end.

(** A probe routine that gets no answer. *)
Definition probe_silent (l : loc) : M Z := ret (- RIG_ETIMEOUT).

Definition bare (model : Z) (name : string) (funcs : Z) : caps_t :=
  Caps.mk model name 1200 9600 8 1 0 0 200 3 funcs 0
          None None None None None None None None None None None.

Definition tuned (model : Z) (name : string) : caps_t :=
  Caps.mk model name 4800 4800 8 2 0 0 2000 3 5 0
          None None None None (Some probe_silent)
          (Some remember_freq) (Some recall_freq) None None None None.

Definition base : list caps_t :=
  [ bare 101 "bare" (2 ^ 32 + 5); tuned 102 "tuned" ].

Definition PORT_SERIAL : Z := 0.
Definition PATHLEN : nat := 100.

(** A serial port that always opens: the new descriptor is stored in the
    handle's state. *)
Definition serial_open (l : loc) : M Z :=
  let* r := load l in
  fun w =>
    let fd := 3 + Z.of_nat (size (open_fds w)) in
    Ret 0 (mkWorld (<[l := mkRIG (caps r) (State.set_fd fd (state r))]> (heap w))
                   (next_loc w) (mem_left w) ({[fd]} ∪ open_fds w)
                   (cells w) (stdout w)).

(** Nothing allocated, nothing open, room for [n] handles. *)
Definition fresh (n : nat) : World := mkWorld ∅ 1%positive n ∅ ∅ [].

(** The world and handle after [rig_init] of model [m] in [fresh 4]. *)
Definition created (m : Z) : outcome (option loc) :=
  rig_init PORT_SERIAL PATHLEN base m (fresh 4).

Definition world_of {A} (o : outcome A) : World :=
  match o with Ret _ w => w | Fault => fresh 0 end.

(** The result of [rig_open] on that handle, and the world it leaves. *)
Definition opened (m : Z) : outcome Z :=
  match created m with
  | Ret rig w => rig_open PORT_SERIAL base serial_open rig w
  | Fault => Fault
  end.

(** A live handle for descriptor [i] with calibration factor [k]. *)
Definition calibrated (i : nat) (k : double) : World :=
  mkWorld {[ 1%positive := mkRIG (Some i) (State.set_vfo_comp k State.zero) ]}
          2%positive 3 ∅ ∅ [].

(** A backend [rig_open] that reports a refusal. *)
Definition open_refuses (l : loc) : M Z := ret (- RIG_ERJCTED).

(** A probe routine that recognises the rig. *)
Definition probe_answers (l : loc) : M Z := ret 0.

Definition hooked (model : Z) (name : string) : caps_t :=
  Caps.mk model name 1200 9600 8 1 0 0 200 3 0 0
          None (Some open_refuses) None None (Some probe_answers)
          None None None None None None.

(** A registry where the second candidate to probe answers. *)
Definition base_answering : list caps_t :=
  [ bare 101 "bare" 5; tuned 102 "tuned"; hooked 103 "hooked" ].

(** A live handle that has no descriptor. *)
Definition orphan : World :=
  mkWorld {[ 1%positive := mkRIG None State.zero ]} 2%positive 3 ∅ ∅ [].

End Demo.

(** * Properties *)

(** ** The error table *)

Lemma rigerror_entries :
  rigerror RIG_OK = Some "Command completed sucessfully"%string /\
  rigerror RIG_EINVAL = Some "Invalid parameter"%string /\
  rigerror RIG_ECONF = Some "Invalid configuration"%string /\
  rigerror RIG_ENOMEM = Some "Memory shortage"%string /\
  rigerror RIG_ENIMPL = Some "Feature not implemented"%string /\
  rigerror RIG_ETIMEOUT = Some "Communication timed out"%string /\
  rigerror RIG_EIO = Some "IO error"%string /\
  rigerror RIG_EINTERNAL = Some "Internal Hamlib error"%string /\
  rigerror RIG_EPROTO = Some "Protocol error"%string /\
  rigerror RIG_ERJCTED = Some "Command rejected by the rig"%string /\
  rigerror RIG_ETRUNC =
    Some "Command performed, but arg truncated, result not guaranteed"%string.
Proof. repeat split; reflexivity. Qed.

Lemma rigerror_defined_iff (errnum : Z) :
  is_Some (rigerror errnum) <-> 0 <= errnum <= RIG_ETRUNC.
Proof.
  unfold rigerror, RIG_ETRUNC. destruct (Z.ltb_spec errnum 0) as [Hneg | Hpos].
  - split; [intros [s Hs]; discriminate | lia].
  - rewrite lookup_lt_is_Some. change (length rigerror_table) with 11%nat. lia.
Qed.

(** C2 (the code departs from the claim): [rigerror] indexes the table with
    the code as it comes. A taxonomy code gets its description, but one
    past the last code, or a negative one, reads outside the table: there is
    no fallback string, the lookup is defined on the codes [0 .. 10] only. *)
Theorem rigerror_reads_out_of_bounds :
  rigerror (RIG_ETRUNC + 1) = None /\
  rigerror (- RIG_EINVAL) = None /\
  forall errnum : Z, rigerror errnum = None <-> (errnum < 0 \/ RIG_ETRUNC < errnum).
Proof.
  split; [reflexivity | split; [reflexivity |]].
  intros errnum. pose proof (rigerror_defined_iff errnum) as Hdef.
  rewrite <- not_eq_None_Some in Hdef.
  destruct (rigerror errnum) as [s |] eqn:E.
  - split; [discriminate |]. intros Hout.
    assert (0 <= errnum <= RIG_ETRUNC) by (apply Hdef; discriminate). lia.
  - split; [| reflexivity]. intros _.
    destruct (decide (0 <= errnum <= RIG_ETRUNC)) as [Hin | Hout]; [| lia].
    apply Hdef in Hin. congruence.
Qed.

(** ** The registry scan *)

Section Lookup.

Variable rig_model : Z.

Lemma lookup_from_shift (l : list caps_t) (i : nat) :
  lookup_from rig_model l i = (i + lookup_from rig_model l 0)%nat.
Proof.
  revert i. induction l as [| c l IH]; intros i; simpl.
  - lia.
  - destruct (Caps.rig_model c =? rig_model); [lia |].
    rewrite (IH (S i)), (IH 1%nat). lia.
Qed.

(** Where the scan stops on a descriptor, that descriptor has the model
    looked for, and none before it has. *)
Lemma lookup_from_found (l : list caps_t) (c : caps_t) :
  l !! lookup_from rig_model l 0 = Some c -> Caps.rig_model c = rig_model.
Proof.
  induction l as [| c0 l IH]; simpl; [discriminate |].
  destruct (Z.eqb_spec (Caps.rig_model c0) rig_model) as [Heq | Hne].
  - simpl. intros [= <-]. exact Heq.
  - rewrite lookup_from_shift. simpl. exact IH.
Qed.

Lemma lookup_from_first (l : list caps_t) (k : nat) (c : caps_t) :
  (k < lookup_from rig_model l 0)%nat -> l !! k = Some c ->
  Caps.rig_model c <> rig_model.
Proof.
  revert k. induction l as [| c0 l IH]; intros k; simpl; [lia |].
  destruct (Z.eqb_spec (Caps.rig_model c0) rig_model) as [Heq | Hne]; [lia |].
  rewrite lookup_from_shift. destruct k as [| k]; simpl.
  - intros _ [= <-]. exact Hne.
  - intros Hk. apply IH. lia.
Qed.

(** The scan reaches the terminating [NULL] exactly when no descriptor has
    the model. *)
Lemma lookup_from_end (l : list caps_t) :
  l !! lookup_from rig_model l 0 = None <->
  (forall c, c ∈ l -> Caps.rig_model c <> rig_model).
Proof.
  induction l as [| c0 l IH]; simpl.
  - split; [intros _ c Hc; inversion Hc | reflexivity].
  - destruct (Z.eqb_spec (Caps.rig_model c0) rig_model) as [Heq | Hne].
    + simpl. split; [discriminate |]. intros Hall.
      exfalso. apply (Hall c0); [left | exact Heq].
    + rewrite lookup_from_shift. simpl. rewrite IH. split.
      * intros Hall c Hc. apply elem_of_cons in Hc as [-> | Hc]; auto.
      * intros Hall c Hc. apply Hall. right. exact Hc.
Qed.

End Lookup.

(** C5: for a model identifier some descriptor of the registry carries,
    [rig_get_caps] returns (a pointer to) a descriptor of the registry whose
    identifier is the one asked for, the first such; for an identifier no
    descriptor carries it returns [NULL] and prints nothing. *)
Theorem rig_get_caps_lookup (rig_base : list caps_t) (rig_model : Z) (w : World) :
  ((exists c, c ∈ rig_base /\ Caps.rig_model c = rig_model) ->
   exists i c w',
     rig_get_caps rig_base rig_model w = Ret (Some i) w' /\
     rig_base !! i = Some c /\ Caps.rig_model c = rig_model /\
     (forall k c', (k < i)%nat -> rig_base !! k = Some c' ->
                   Caps.rig_model c' <> rig_model)) /\
  ((forall c, c ∈ rig_base -> Caps.rig_model c <> rig_model) ->
   rig_get_caps rig_base rig_model w = Ret None w).
Proof.
  unfold rig_get_caps. split.
  - intros (c0 & Hin & Hm).
    destruct (rig_base !! lookup_from rig_model rig_base 0) as [c |] eqn:E.
    + exists (lookup_from rig_model rig_base 0), c. eexists.
      split; [reflexivity |]. split; [exact E |].
      split; [eapply lookup_from_found; exact E |].
      intros k c' Hk Hc'. eapply lookup_from_first; eauto.
    + exfalso. rewrite lookup_from_end in E. exact (E c0 Hin Hm).
  - intros Hall. apply lookup_from_end in Hall. rewrite Hall. reflexivity.
Qed.

Lemma rig_get_caps_lookup_witness :
  (exists i c w',
     rig_get_caps Demo.base 102 (Demo.fresh 4) = Ret (Some i) w' /\
     Demo.base !! i = Some c /\ Caps.rig_model c = 102 /\
     (forall k c', (k < i)%nat -> Demo.base !! k = Some c' ->
                   Caps.rig_model c' <> 102)) /\
  rig_get_caps Demo.base 7 (Demo.fresh 4) = Ret None (Demo.fresh 4).
Proof.
  split.
  - apply (rig_get_caps_lookup Demo.base 102 (Demo.fresh 4)).
    exists (Demo.tuned 102 "tuned"). split; [| reflexivity].
    right. left.
  - apply (rig_get_caps_lookup Demo.base 7 (Demo.fresh 4)).
    intros c Hc. unfold Demo.base in Hc.
    apply elem_of_cons in Hc as [-> | Hc]; [discriminate |].
    apply elem_of_cons in Hc as [-> | Hc]; [discriminate |].
    inversion Hc.
Defined.

(** ** Creating a handle *)

(** C9 (the code departs from the claim): when [calloc] has no memory left,
    [rig_init] of a registered model returns [NULL] and leaves the world as
    it was, which is to the letter what it does for a model that is not
    registered; no [RIG_ENOMEM] reaches the caller. *)
Theorem rig_init_shortage_is_null
    (RIG_PORT_SERIAL : Z) (FILPATHLEN : nat) (rig_base : list caps_t)
    (registered unregistered : Z) (w : World) :
  mem_left w = 0%nat ->
  (exists c, c ∈ rig_base /\ Caps.rig_model c = registered) ->
  (forall c, c ∈ rig_base -> Caps.rig_model c <> unregistered) ->
  rig_init RIG_PORT_SERIAL FILPATHLEN rig_base registered w = Ret None w /\
  rig_init RIG_PORT_SERIAL FILPATHLEN rig_base unregistered w = Ret None w.
Proof.
  intros Hmem (c0 & Hin & Hm) Hun. unfold rig_init. split.
  - destruct (rig_base !! lookup_from registered rig_base 0) as [c |] eqn:E.
    + unfold bind, calloc_RIG. rewrite Hmem. reflexivity.
    + reflexivity.
  - apply lookup_from_end in Hun. rewrite Hun. reflexivity.
Qed.

Lemma rig_init_shortage_is_null_witness :
  rig_init Demo.PORT_SERIAL Demo.PATHLEN Demo.base 102 (Demo.fresh 0)
    = Ret None (Demo.fresh 0) /\
  rig_init Demo.PORT_SERIAL Demo.PATHLEN Demo.base 7 (Demo.fresh 0)
    = Ret None (Demo.fresh 0).
Proof.
  apply (rig_init_shortage_is_null Demo.PORT_SERIAL Demo.PATHLEN Demo.base 102 7
           (Demo.fresh 0)).
  - reflexivity.
  - exists (Demo.tuned 102 "tuned"). split; [right; left | reflexivity].
  - intros c Hc. unfold Demo.base in Hc.
    apply elem_of_cons in Hc as [-> | Hc]; [discriminate |].
    apply elem_of_cons in Hc as [-> | Hc]; [discriminate |].
    inversion Hc.
Defined.

(** ** The accessors *)

Ltac run_accessor :=
  unfold rig_set_freq, rig_get_freq, rig_set_mode, rig_get_mode,
         rig_set_vfo, rig_get_vfo, rig_has_func, bind, load, ret, deref_caps;
  simpl.

Section Accessors.

Variable rig_base : list caps_t.
Variable w : World.

Lemma accessors_null_handle (freq mode vfo : Z) (out : option loc) :
  rig_set_freq rig_base None freq w = Ret (- RIG_EINVAL) w /\
  rig_get_freq rig_base None out w = Ret (- RIG_EINVAL) w /\
  rig_set_mode rig_base None mode w = Ret (- RIG_EINVAL) w /\
  rig_get_mode rig_base None out w = Ret (- RIG_EINVAL) w /\
  rig_set_vfo rig_base None vfo w = Ret (- RIG_EINVAL) w /\
  rig_get_vfo rig_base None out w = Ret (- RIG_EINVAL) w.
Proof. repeat split. Qed.

Variable l : loc.
Variable r : RIG.
Hypothesis Hlive : heap w !! l = Some r.

Lemma accessors_null_caps (freq mode vfo : Z) (out : option loc) :
  caps r = None ->
  rig_set_freq rig_base (Some l) freq w = Ret (- RIG_EINVAL) w /\
  rig_get_freq rig_base (Some l) out w = Ret (- RIG_EINVAL) w /\
  rig_set_mode rig_base (Some l) mode w = Ret (- RIG_EINVAL) w /\
  rig_get_mode rig_base (Some l) out w = Ret (- RIG_EINVAL) w /\
  rig_set_vfo rig_base (Some l) vfo w = Ret (- RIG_EINVAL) w /\
  rig_get_vfo rig_base (Some l) out w = Ret (- RIG_EINVAL) w.
Proof.
  intros Hnull. run_accessor. rewrite Hlive, Hnull. repeat split.
Qed.

Lemma getters_null_output_live :
  rig_get_freq rig_base (Some l) None w = Ret (- RIG_EINVAL) w /\
  rig_get_mode rig_base (Some l) None w = Ret (- RIG_EINVAL) w /\
  rig_get_vfo rig_base (Some l) None w = Ret (- RIG_EINVAL) w.
Proof.
  run_accessor. rewrite Hlive. destruct (caps r); repeat split.
Qed.

Variable i : nat.
Variable c : caps_t.
Hypothesis Hcaps : caps r = Some i.
Hypothesis Hbase : rig_base !! i = Some c.

Lemma rig_set_freq_delegates (freq : freq_t) :
  rig_set_freq rig_base (Some l) freq w =
    match Caps.set_freq c with
    | None => Ret (- RIG_ENIMPL) w
    | Some f =>
        f l (if double_ne (State.vfo_comp (state r)) double_zero
             then compensate (State.vfo_comp (state r)) freq
             else freq) w
    end.
Proof.
  unfold rig_set_freq, bind, load, deref_caps.
  rewrite Hlive, Hcaps, Hbase. unfold ret.
  destruct (Caps.set_freq c); reflexivity.
Qed.

Lemma setters_delegate (mode vfo : Z) :
  rig_set_mode rig_base (Some l) mode w =
    match Caps.set_mode c with
    | None => Ret (- RIG_ENIMPL) w
    | Some f => f l mode w
    end /\
  rig_set_vfo rig_base (Some l) vfo w =
    match Caps.set_vfo c with
    | None => Ret (- RIG_ENIMPL) w
    | Some f => f l vfo w
    end.
Proof.
  run_accessor. rewrite Hlive, Hcaps, Hbase. unfold ret.
  destruct (Caps.set_mode c), (Caps.set_vfo c); split; reflexivity.
Qed.

Lemma getters_delegate (out : loc) :
  rig_get_freq rig_base (Some l) (Some out) w =
    match Caps.get_freq c with
    | None => Ret (- RIG_ENIMPL) w
    | Some f => f l out w
    end /\
  rig_get_mode rig_base (Some l) (Some out) w =
    match Caps.get_mode c with
    | None => Ret (- RIG_ENIMPL) w
    | Some f => f l out w
    end /\
  rig_get_vfo rig_base (Some l) (Some out) w =
    match Caps.get_vfo c with
    | None => Ret (- RIG_ENIMPL) w
    | Some f => f l out w
    end.
Proof.
  run_accessor. rewrite Hlive, Hcaps, Hbase. unfold ret.
  destruct (Caps.get_freq c), (Caps.get_mode c), (Caps.get_vfo c);
    repeat split; reflexivity.
Qed.

End Accessors.


(** C7 (fails as stated): a getter called on a live handle whose descriptor
    lacks the function, with a null output location, answers
    [-RIG_EINVAL], not [-RIG_ENIMPL]. *)
Lemma accessors_contract_counterexample :
  (exists r c,
     heap (Demo.calibrated 0 double_zero) !! 1%positive = Some r /\
     caps r = Some 0%nat /\ Demo.base !! 0%nat = Some c /\
     Caps.get_freq c = None) /\
  rig_get_freq Demo.base (Some 1%positive) None (Demo.calibrated 0 double_zero)
    = Ret (- RIG_EINVAL) (Demo.calibrated 0 double_zero) /\
  rig_get_freq Demo.base (Some 1%positive) None (Demo.calibrated 0 double_zero)
    <> Ret (- RIG_ENIMPL) (Demo.calibrated 0 double_zero).
Proof.
  split; [| split].
  - eexists _, _. repeat split; reflexivity.
  - reflexivity.
  - intros H. vm_compute in H. discriminate H.
Qed.

(** C7 (amended): each of the six accessors fails with [-RIG_EINVAL] for a
    null handle and for a handle without descriptor. For a handle with a
    descriptor, the getters given a non-null output location: the accessor
    fails with [-RIG_ENIMPL] if the descriptor lacks the function, and
    otherwise is the function's own call, result and effects alike
    ([rig_set_freq] passing the frequency, compensated when the calibration
    factor is not 0.0). *)
Theorem accessors_contract
    (rig_base : list caps_t) (w : World) (l : loc) (r : RIG)
    (freq mode vfo : Z) (out : loc) :
  heap w !! l = Some r ->
  (rig_set_freq rig_base None freq w = Ret (- RIG_EINVAL) w /\
   rig_get_freq rig_base None (Some out) w = Ret (- RIG_EINVAL) w /\
   rig_set_mode rig_base None mode w = Ret (- RIG_EINVAL) w /\
   rig_get_mode rig_base None (Some out) w = Ret (- RIG_EINVAL) w /\
   rig_set_vfo rig_base None vfo w = Ret (- RIG_EINVAL) w /\
   rig_get_vfo rig_base None (Some out) w = Ret (- RIG_EINVAL) w) /\
  (caps r = None ->
   rig_set_freq rig_base (Some l) freq w = Ret (- RIG_EINVAL) w /\
   rig_get_freq rig_base (Some l) (Some out) w = Ret (- RIG_EINVAL) w /\
   rig_set_mode rig_base (Some l) mode w = Ret (- RIG_EINVAL) w /\
   rig_get_mode rig_base (Some l) (Some out) w = Ret (- RIG_EINVAL) w /\
   rig_set_vfo rig_base (Some l) vfo w = Ret (- RIG_EINVAL) w /\
   rig_get_vfo rig_base (Some l) (Some out) w = Ret (- RIG_EINVAL) w) /\
  (forall i c, caps r = Some i -> rig_base !! i = Some c ->
   rig_set_freq rig_base (Some l) freq w =
     match Caps.set_freq c with
     | None => Ret (- RIG_ENIMPL) w
     | Some f =>
         f l (if double_ne (State.vfo_comp (state r)) double_zero
              then compensate (State.vfo_comp (state r)) freq
              else freq) w
     end /\
   rig_get_freq rig_base (Some l) (Some out) w =
     match Caps.get_freq c with
     | None => Ret (- RIG_ENIMPL) w
     | Some f => f l out w
     end /\
   rig_set_mode rig_base (Some l) mode w =
     match Caps.set_mode c with
     | None => Ret (- RIG_ENIMPL) w
     | Some f => f l mode w
     end /\
   rig_get_mode rig_base (Some l) (Some out) w =
     match Caps.get_mode c with
     | None => Ret (- RIG_ENIMPL) w
     | Some f => f l out w
     end /\
   rig_set_vfo rig_base (Some l) vfo w =
     match Caps.set_vfo c with
     | None => Ret (- RIG_ENIMPL) w
     | Some f => f l vfo w
     end /\
   rig_get_vfo rig_base (Some l) (Some out) w =
     match Caps.get_vfo c with
     | None => Ret (- RIG_ENIMPL) w
     | Some f => f l out w
     end).
Proof.
  intros Hlive. split; [| split].
  - apply accessors_null_handle.
  - intros Hnull. apply (accessors_null_caps rig_base w l r Hlive); exact Hnull.
  - intros i c Hcaps Hbase.
    destruct (setters_delegate rig_base w l r Hlive i c Hcaps Hbase mode vfo)
      as [Hmode Hvfo].
    destruct (getters_delegate rig_base w l r Hlive i c Hcaps Hbase out)
      as (Hgf & Hgm & Hgv).
    split; [| tauto].
    apply (rig_set_freq_delegates rig_base w l r Hlive i c Hcaps Hbase).
Qed.

Lemma accessors_contract_witness :
  heap (Demo.calibrated 1 double_zero) !! 1%positive
    = Some (mkRIG (Some 1%nat) (State.set_vfo_comp double_zero State.zero)) /\
  rig_set_freq Demo.base (Some 1%positive) 7000000 (Demo.calibrated 1 double_zero)
    = Demo.remember_freq 1%positive 7000000 (Demo.calibrated 1 double_zero) /\
  rig_get_mode Demo.base (Some 1%positive) (Some 5%positive)
               (Demo.calibrated 1 double_zero)
    = Ret (- RIG_ENIMPL) (Demo.calibrated 1 double_zero).
Proof.
  split; [reflexivity |].
  destruct (accessors_contract Demo.base (Demo.calibrated 1 double_zero)
              1%positive
              (mkRIG (Some 1%nat) (State.set_vfo_comp double_zero State.zero))
              7000000 0 0 5%positive eq_refl) as (_ & _ & Hlive).
  destruct (Hlive 1%nat (Demo.tuned 102 "tuned") eq_refl eq_refl)
    as (Hsf & _ & _ & Hgm & _).
  split; [exact Hsf | exact Hgm].
Defined.

(** C10: a getter given a null output location fails with [-RIG_EINVAL],
    whatever the handle (null, without descriptor, or with a descriptor
    that has the function), and the world is left as it was: no backend
    function has run. *)
Theorem getters_reject_null_output
    (rig_base : list caps_t) (rig : option loc) (w : World) :
  (forall l, rig = Some l -> is_Some (heap w !! l)) ->
  rig_get_freq rig_base rig None w = Ret (- RIG_EINVAL) w /\
  rig_get_mode rig_base rig None w = Ret (- RIG_EINVAL) w /\
  rig_get_vfo rig_base rig None w = Ret (- RIG_EINVAL) w.
Proof.
  intros Hlive. destruct rig as [l |].
  - destruct (Hlive l eq_refl) as [r Hr].
    exact (getters_null_output_live rig_base w l r Hr).
  - repeat split.
Qed.

Lemma getters_reject_null_output_witness :
  Caps.get_freq (Demo.tuned 102 "tuned") = Some Demo.recall_freq /\
  rig_get_freq Demo.base (Some 1%positive) None (Demo.calibrated 1 double_zero)
    = Ret (- RIG_EINVAL) (Demo.calibrated 1 double_zero) /\
  rig_get_mode Demo.base (Some 1%positive) None (Demo.calibrated 1 double_zero)
    = Ret (- RIG_EINVAL) (Demo.calibrated 1 double_zero) /\
  rig_get_vfo Demo.base (Some 1%positive) None (Demo.calibrated 1 double_zero)
    = Ret (- RIG_EINVAL) (Demo.calibrated 1 double_zero).
Proof.
  split; [reflexivity |].
  apply (getters_reject_null_output Demo.base (Some 1%positive)
           (Demo.calibrated 1 double_zero)).
  intros l [= <-]. eexists. reflexivity.
Defined.

(** ** Frequency compensation *)

(** [double_1_02] is the binary64 number [m * 2^-52] with
    [m = 4593671619917906], a 53-bit mantissa; it is within half a unit in
    the last place of 102/100 (the inequality is that distance scaled by
    [100 * 2^53]). *)
Lemma double_1_02_nearest :
  double_1_02 = S754_finite false 4593671619917906 (-52) /\
  valid_binary prec emax double_1_02 = true /\
  Z.abs (100 * 4593671619917906 - 102 * 2 ^ 52) * 2 <= 100.
Proof. repeat split; vm_compute; congruence. Qed.

Lemma compensate_1_02 : compensate double_1_02 14000000 = 14280000.
Proof. vm_compute. reflexivity. Qed.

(** C6: on a live handle whose descriptor has a [set_freq], with the
    calibration factor [1.02] a request for 14000000 is the backend's call
    with 14280000; with the factor [0.0], which is how [rig_init] leaves it
    (compensation off), any request is the backend's call with the same
    frequency. *)
Theorem rig_set_freq_calibration
    (rig_base : list caps_t) (w : World) (l : loc) (r : RIG) (i : nat)
    (c : caps_t) (f : loc -> Z -> M Z) :
  heap w !! l = Some r -> caps r = Some i -> rig_base !! i = Some c ->
  Caps.set_freq c = Some f ->
  (State.vfo_comp (state r) = double_1_02 ->
   rig_set_freq rig_base (Some l) 14000000 w = f l 14280000 w) /\
  (State.vfo_comp (state r) = double_zero ->
   forall freq, rig_set_freq rig_base (Some l) freq w = f l freq w).
Proof.
  intros Hlive Hcaps Hbase Hset. split.
  - intros Hk.
    rewrite (rig_set_freq_delegates rig_base w l r Hlive i c Hcaps Hbase 14000000).
    rewrite Hset, Hk, compensate_1_02. reflexivity.
  - intros Hk freq.
    rewrite (rig_set_freq_delegates rig_base w l r Hlive i c Hcaps Hbase freq).
    rewrite Hset, Hk. reflexivity.
Qed.

Lemma rig_set_freq_calibration_witness :
  rig_set_freq Demo.base (Some 1%positive) 14000000 (Demo.calibrated 1 double_1_02)
    = Demo.remember_freq 1%positive 14280000 (Demo.calibrated 1 double_1_02) /\
  rig_set_freq Demo.base (Some 1%positive) 14000000 (Demo.calibrated 1 double_zero)
    = Demo.remember_freq 1%positive 14000000 (Demo.calibrated 1 double_zero).
Proof.
  split.
  - apply (rig_set_freq_calibration Demo.base (Demo.calibrated 1 double_1_02)
             1%positive
             (mkRIG (Some 1%nat) (State.set_vfo_comp double_1_02 State.zero))
             1%nat (Demo.tuned 102 "tuned") Demo.remember_freq
             eq_refl eq_refl eq_refl eq_refl).
    reflexivity.
  - apply (rig_set_freq_calibration Demo.base (Demo.calibrated 1 double_zero)
             1%positive
             (mkRIG (Some 1%nat) (State.set_vfo_comp double_zero State.zero))
             1%nat (Demo.tuned 102 "tuned") Demo.remember_freq
             eq_refl eq_refl eq_refl eq_refl).
    reflexivity.
Defined.

(** ** Feature flags *)

Lemma land_below (a b n : Z) : 0 <= n -> 0 <= b < 2 ^ n -> 0 <= Z.land a b < 2 ^ n.
Proof.
  intros Hn Hb.
  assert (Hones : Z.land b (Z.ones n) = b)
    by (rewrite Z.land_ones by lia; apply Z.mod_small; lia).
  rewrite <- Hones, Z.land_assoc, Z.land_ones by lia.
  apply Z.mod_pos_bound. lia.
Qed.

Lemma to_int_zero_iff (x : Z) : 0 <= x < 2 ^ INT_BITS -> (to_int x = 0 <-> x = 0).
Proof.
  unfold to_int, INT_BITS. intros Hx. rewrite Z.mod_small by exact Hx.
  change (2 ^ (32 - 1)) with 2147483648. change (2 ^ 32) with 4294967296 in *.
  destruct (Z.ltb_spec x 2147483648); lia.
Qed.

(** C8 (fails as stated): with a 64-bit [unsigned long], the flag [2^32]
    is set in the mask of the descriptor, and [rig_has_func] returns 0 for
    it: the [unsigned long] result of [&] loses its upper half on the way
    to the [int] that is returned. *)
Lemma rig_has_func_counterexample :
  is_ulong (2 ^ 32) /\
  (exists r c,
     heap (Demo.calibrated 0 double_zero) !! 1%positive = Some r /\
     caps r = Some 0%nat /\ Demo.base !! 0%nat = Some c /\
     is_ulong (Caps.has_func c) /\
     Z.land (Caps.has_func c) (2 ^ 32) = 2 ^ 32) /\
  rig_has_func Demo.base (Some 1%positive) (2 ^ 32) (Demo.calibrated 0 double_zero)
    = Ret 0 (Demo.calibrated 0 double_zero).
Proof.
  split; [| split].
  - unfold is_ulong, ULONG_BITS. lia.
  - eexists _, _. repeat split; try reflexivity; vm_compute; congruence.
  - vm_compute. reflexivity.
Qed.

(** C8 (amended): for a handle with a descriptor and a flag that fits in
    the 32 bits of the returned [int], [rig_has_func] returns a non-zero
    value exactly when the flag has a bit in common with the descriptor's
    mask (for a single-bit flag: when that bit of the mask is set). For a
    null handle and for a handle without descriptor it returns [-1], which
    is [-RIG_EINVAL] and differs from the 0 of an absent feature. The world
    is never changed. *)
Theorem rig_has_func_low_flags
    (rig_base : list caps_t) (w : World) (l : loc) (r : RIG) (func : Z) :
  heap w !! l = Some r ->
  0 <= func < 2 ^ INT_BITS ->
  (rig_has_func rig_base None func w = Ret (-1) w /\
   -1 = - RIG_EINVAL /\ -1 <> 0) /\
  (caps r = None -> rig_has_func rig_base (Some l) func w = Ret (-1) w) /\
  (forall i c, caps r = Some i -> rig_base !! i = Some c ->
   exists v,
     rig_has_func rig_base (Some l) func w = Ret v w /\
     (v <> 0 <-> Z.land (Caps.has_func c) func <> 0) /\
     (forall k, 0 <= k -> func = 2 ^ k ->
                (v <> 0 <-> Z.testbit (Caps.has_func c) k = true))).
Proof.
  intros Hlive Hfunc. split; [| split].
  - repeat split. discriminate.
  - intros Hnull. run_accessor. rewrite Hlive, Hnull. reflexivity.
  - intros i c Hcaps Hbase. run_accessor. rewrite Hlive, Hcaps, Hbase.
    eexists. split; [reflexivity |].
    assert (Hzero : to_int (Z.land (Caps.has_func c) func) <> 0
                    <-> Z.land (Caps.has_func c) func <> 0).
    { rewrite to_int_zero_iff; [tauto |]. apply land_below; [discriminate | exact Hfunc]. }
    split; [exact Hzero |].
    intros k Hk ->. rewrite Hzero.
    destruct (Z.testbit (Caps.has_func c) k) eqn:Hbit.
    + split; [reflexivity |]. intros _ Hland.
      apply (f_equal (fun x => Z.testbit x k)) in Hland.
      rewrite Z.land_spec, Hbit, Z.pow2_bits_true, Z.bits_0 in Hland by lia.
      discriminate.
    + split; [| discriminate]. intros Hland. exfalso. apply Hland.
      apply Z.bits_inj'. intros n Hn.
      rewrite Z.land_spec, Z.bits_0.
      destruct (decide (n = k)) as [-> | Hne].
      * rewrite Hbit. reflexivity.
      * rewrite Z.pow2_bits_false by lia. apply andb_false_r.
Qed.

Lemma rig_has_func_low_flags_witness :
  (exists v,
     rig_has_func Demo.base (Some 1%positive) 4 (Demo.calibrated 0 double_zero)
       = Ret v (Demo.calibrated 0 double_zero) /\
     (v <> 0 <-> Z.land (Caps.has_func (Demo.bare 101 "bare" (2 ^ 32 + 5))) 4 <> 0) /\
     (forall k, 0 <= k -> 4 = 2 ^ k ->
        (v <> 0 <->
         Z.testbit (Caps.has_func (Demo.bare 101 "bare" (2 ^ 32 + 5))) k = true))).
Proof.
  assert (Hfunc : 0 <= 4 < 2 ^ INT_BITS) by (unfold INT_BITS; lia).
  destruct (rig_has_func_low_flags Demo.base (Demo.calibrated 0 double_zero)
              1%positive
              (mkRIG (Some 0%nat) (State.set_vfo_comp double_zero State.zero))
              4 eq_refl Hfunc) as (_ & _ & Hlive).
  exact (Hlive 0%nat (Demo.bare 101 "bare" (2 ^ 32 + 5)) eq_refl eq_refl).
Defined.

(** ** Closing and releasing *)

(** The guard of [rig_close] and [rig_cleanup] turns away every handle
    that has a descriptor, and nothing is closed or freed. *)
Lemma close_cleanup_with_caps
    (rig_base : list caps_t) (w : World) (l : loc) (r : RIG) (i : nat) :
  heap w !! l = Some r -> caps r = Some i ->
  rig_close rig_base (Some l) w = Ret (- RIG_EINVAL) w /\
  rig_cleanup rig_base (Some l) w = Ret (- RIG_EINVAL) w.
Proof.
  intros Hlive Hcaps. unfold rig_close, rig_cleanup, bind, load.
  rewrite Hlive, Hcaps. split; reflexivity.
Qed.

(** Past the guard the descriptor pointer is null, and is followed. *)
Lemma close_cleanup_without_caps
    (rig_base : list caps_t) (w : World) (l : loc) (r : RIG) :
  heap w !! l = Some r -> caps r = None ->
  rig_close rig_base (Some l) w = Fault /\
  rig_cleanup rig_base (Some l) w = Fault.
Proof.
  intros Hlive Hcaps. unfold rig_close, rig_cleanup, bind, load.
  rewrite Hlive, Hcaps. split; reflexivity.
Qed.

(** C1 (fails as stated): the handle [rig_init] makes for model 102, never
    opened, is turned away by [rig_close] with [-RIG_EINVAL], which is not
    [-RIG_ECONF]. *)
Lemma rig_close_never_opened_counterexample :
  exists (l : loc) (w : World),
    rig_init Demo.PORT_SERIAL Demo.PATHLEN Demo.base 102 (Demo.fresh 4)
      = Ret (Some l) w /\
    rig_close Demo.base (Some l) w = Ret (- RIG_EINVAL) w /\
    rig_close Demo.base (Some l) w <> Ret (- RIG_ECONF) w.
Proof.
  eexists _, _. split; [vm_compute; reflexivity |]. split.
  - vm_compute. reflexivity.
  - intros H. vm_compute in H. discriminate H.
Qed.

(** C1 (amended): [rig_close] looks at no life-cycle state. On a null
    handle it fails with [-RIG_EINVAL]; on any handle, one that was never
    opened included, a call that returns gives [RIG_OK] or [-RIG_EINVAL],
    never [-RIG_ECONF]. *)
Theorem rig_close_result
    (rig_base : list caps_t) (rig : option loc) (w w' : World) (v : Z) :
  rig_close rig_base rig w = Ret v w' ->
  (v = RIG_OK \/ v = - RIG_EINVAL) /\ v <> - RIG_ECONF /\
  rig_close rig_base None w = Ret (- RIG_EINVAL) w.
Proof.
  intros Hrun.
  assert (Hv : v = - RIG_EINVAL).
  { destruct rig as [l |]; [| injection Hrun as <- _; reflexivity].
    unfold rig_close, bind, load in Hrun.
    destruct (heap w !! l) as [r |]; [| discriminate Hrun].
    destruct (caps r) as [i |]; [injection Hrun as <- _; reflexivity |].
    discriminate Hrun. }
  subst v. repeat split; [right; reflexivity | discriminate].
Qed.

Lemma rig_close_result_witness :
  (- RIG_EINVAL = RIG_OK \/ - RIG_EINVAL = - RIG_EINVAL) /\
  - RIG_EINVAL <> - RIG_ECONF /\
  rig_close Demo.base None (Demo.calibrated 1 double_zero)
    = Ret (- RIG_EINVAL) (Demo.calibrated 1 double_zero).
Proof.
  apply (rig_close_result Demo.base (Some 1%positive)
           (Demo.calibrated 1 double_zero) (Demo.calibrated 1 double_zero)
           (- RIG_EINVAL)).
  reflexivity.
Defined.

(** ** Probing *)

(** C3 (the code departs from the claim): one descriptor of the registry
    has a probe routine, and it gets no answer. [rig_probe] returns [NULL],
    but the handle it made is still allocated, its descriptor 3 is still
    open and stored in it, and [calloc] has one object less to give:
    [rig_close] and [rig_cleanup] both turned the handle away. *)
Theorem rig_probe_leaks_handle :
  exists w : World,
    rig_probe Demo.PORT_SERIAL Demo.PATHLEN Demo.base Demo.serial_open
              "/dev/ttyS1" (Demo.fresh 4) = Ret None w /\
    (exists r, heap w !! 1%positive = Some r /\ State.fd (state r) = 3 /\
               rig_close Demo.base (Some 1%positive) w = Ret (- RIG_EINVAL) w /\
               rig_cleanup Demo.base (Some 1%positive) w = Ret (- RIG_EINVAL) w) /\
    3 ∈ open_fds w /\
    mem_left w = 3%nat.
Proof.
  eexists. split; [vm_compute; reflexivity |]. split; [| split].
  - eexists. repeat split; vm_compute; reflexivity.
  - refine (bool_decide_unpack _ _). vm_compute. exact I.
  - reflexivity.
Qed.

(** ** Opening *)

(** C4 (fails as stated): a handle is made and opened, and a second
    [rig_open] right after returns [RIG_OK] as the first did; the transport
    was opened again (descriptors 3 and 4 are both open). *)
Lemma rig_open_twice_counterexample :
  exists (l : loc) (w0 w1 w2 : World),
    rig_init Demo.PORT_SERIAL Demo.PATHLEN Demo.base 101 (Demo.fresh 4)
      = Ret (Some l) w0 /\
    rig_open Demo.PORT_SERIAL Demo.base Demo.serial_open (Some l) w0
      = Ret RIG_OK w1 /\
    rig_open Demo.PORT_SERIAL Demo.base Demo.serial_open (Some l) w1
      = Ret RIG_OK w2 /\
    RIG_OK <> - RIG_ECONF /\
    3 ∈ open_fds w2 /\ 4 ∈ open_fds w2.
Proof.
  eexists _, _, _, _.
  split; [vm_compute; reflexivity |].
  split; [vm_compute; reflexivity |].
  split; [vm_compute; reflexivity |].
  split; [discriminate |].
  split; refine (bool_decide_unpack _ _); vm_compute; exact I.
Qed.

(** C4 (amended): [rig_open] looks at no life-cycle state. On a handle a
    first [rig_open] has opened, and whose port is still the serial kind,
    a second [rig_open] calls the transport again: it returns the
    transport's status as it is when that is not 0, and otherwise runs the
    descriptor's open routine, if any, and returns [RIG_OK]. *)
Theorem rig_open_again
    (RIG_PORT_SERIAL : Z) (rig_base : list caps_t) (serial_open : loc -> M Z)
    (l : loc) (w0 w1 w2 : World) (r : RIG) (status : Z) :
  rig_open RIG_PORT_SERIAL rig_base serial_open (Some l) w0 = Ret RIG_OK w1 ->
  heap w1 !! l = Some r ->
  State.port_type (state r) = RIG_PORT_SERIAL ->
  serial_open l w1 = Ret status w2 ->
  (status <> 0 ->
   rig_open RIG_PORT_SERIAL rig_base serial_open (Some l) w1 = Ret status w2) /\
  (status = 0 ->
   forall r2 i c,
     heap w2 !! l = Some r2 -> caps r2 = Some i -> rig_base !! i = Some c ->
     rig_open RIG_PORT_SERIAL rig_base serial_open (Some l) w1 =
       match Caps.rig_open c with
       | None => Ret RIG_OK w2
       | Some f => match f l w2 with
                   | Ret _ w3 => Ret RIG_OK w3
                   | Fault => Fault
                   end
       end).
Proof.
  intros _ Hlive Hport Hserial. unfold rig_open, bind, load.
  rewrite Hlive, Hport, Z.eqb_refl, Hserial. split.
  - intros Hst. apply Z.eqb_neq in Hst. rewrite Hst. reflexivity.
  - intros -> r2 i c Hlive2 Hcaps Hbase. simpl.
    rewrite Hlive2, Hcaps. unfold deref_caps. rewrite Hbase.
    unfold ret, call_hook, bind.
    destruct (Caps.rig_open c) as [f |]; [| reflexivity].
    destruct (f l w2); reflexivity.
Qed.

Lemma rig_open_again_witness :
  Demo.opened 101 = Ret RIG_OK (Demo.world_of (Demo.opened 101)) /\
  Demo.serial_open 1%positive (Demo.world_of (Demo.opened 101))
    = Ret 0 (Demo.world_of
               (Demo.serial_open 1%positive (Demo.world_of (Demo.opened 101)))) /\
  rig_open Demo.PORT_SERIAL Demo.base Demo.serial_open (Some 1%positive)
           (Demo.world_of (Demo.opened 101))
    = Ret RIG_OK
          (Demo.world_of
             (Demo.serial_open 1%positive (Demo.world_of (Demo.opened 101)))).
Proof.
  assert (Hfirst : rig_open Demo.PORT_SERIAL Demo.base Demo.serial_open
                     (Some 1%positive) (Demo.world_of (Demo.created 101))
                   = Ret RIG_OK (Demo.world_of (Demo.opened 101)))
    by (vm_compute; reflexivity).
  assert (Hserial : Demo.serial_open 1%positive (Demo.world_of (Demo.opened 101))
                    = Ret 0 (Demo.world_of
                               (Demo.serial_open 1%positive
                                  (Demo.world_of (Demo.opened 101)))))
    by (vm_compute; reflexivity).
  assert (Hlive : heap (Demo.world_of (Demo.opened 101)) !! 1%positive
                  = Some (default (mkRIG None State.zero)
                            (heap (Demo.world_of (Demo.opened 101)) !! 1%positive)))
    by (vm_compute; reflexivity).
  assert (Hlive2 : heap (Demo.world_of
                     (Demo.serial_open 1%positive
                        (Demo.world_of (Demo.opened 101)))) !! 1%positive
                   = Some (default (mkRIG None State.zero)
                             (heap (Demo.world_of
                                (Demo.serial_open 1%positive
                                   (Demo.world_of (Demo.opened 101))))
                              !! 1%positive)))
    by (vm_compute; reflexivity).
  split; [vm_compute; reflexivity |].
  split; [exact Hserial |].
  destruct (rig_open_again Demo.PORT_SERIAL Demo.base Demo.serial_open
              1%positive (Demo.world_of (Demo.created 101))
              (Demo.world_of (Demo.opened 101))
              (Demo.world_of
                 (Demo.serial_open 1%positive (Demo.world_of (Demo.opened 101))))
              (default (mkRIG None State.zero)
                 (heap (Demo.world_of (Demo.opened 101)) !! 1%positive))
              0 Hfirst Hlive) as [_ Hok]; [vm_compute; reflexivity | exact Hserial |].
  refine (Hok eq_refl _ 0%nat (Demo.bare 101 "bare" (2 ^ 32 + 5)) Hlive2 _ _);
    vm_compute; reflexivity.
Defined.

(** * Further properties of the life cycle *)

(** ** [rig_init] *)

(** What [rig_init] does for a model the scan finds, with memory left: the
    handle is the fresh address, filled as [init_world] says; then the
    backend's [rig_init], if any, runs on it. *)
Lemma rig_init_run
    (RIG_PORT_SERIAL : Z) (FILPATHLEN : nat) (rig_base : list caps_t)
    (rig_model : Z) (w : World) (n : nat) (c : caps_t) :
  rig_base !! lookup_from rig_model rig_base 0 = Some c ->
  mem_left w = S n ->
  rig_init RIG_PORT_SERIAL FILPATHLEN rig_base rig_model w =
    match Caps.rig_init c with
    | None =>
        Ret (Some (next_loc w))
            (init_world RIG_PORT_SERIAL FILPATHLEN
                        (lookup_from rig_model rig_base 0) c n w)
    | Some f =>
        match f (next_loc w)
                (init_world RIG_PORT_SERIAL FILPATHLEN
                            (lookup_from rig_model rig_base 0) c n w) with
        | Ret _ w2 => Ret (Some (next_loc w)) w2
        | Fault => Fault
        end
    end.
Proof.
  intros Hfound Hmem. unfold rig_init. rewrite Hfound.
  unfold bind, calloc_RIG, store, call_hook, ret, set_heap, init_world, init_state.
  rewrite Hmem. cbn [heap next_loc mem_left open_fds cells stdout State.fd State.zero].
  rewrite lookup_insert_eq.
  cbn [heap next_loc mem_left open_fds cells stdout]. rewrite insert_insert_eq.
  destruct (Caps.rig_init c) as [f |]; [| reflexivity].
  unfold bind. destruct (f _ _); reflexivity.
Qed.

Lemma registered_found (rig_base : list caps_t) (rig_model : Z) :
  (exists c, c ∈ rig_base /\ Caps.rig_model c = rig_model) ->
  exists c, rig_base !! lookup_from rig_model rig_base 0 = Some c /\
            Caps.rig_model c = rig_model.
Proof.
  intros (c0 & Hin & Hm).
  destruct (rig_base !! lookup_from rig_model rig_base 0) as [c |] eqn:E.
  - exists c. split; [reflexivity | eapply lookup_from_found; exact E].
  - exfalso. rewrite lookup_from_end in E. exact (E c0 Hin Hm).
Qed.

(** X1: for a registered model and with memory left, [rig_init] makes the
    handle at the allocator's next address; its descriptor has the model
    asked for, and its state is the descriptor's defaults: serial port,
    default path, the fastest rate, calibration 0.0, and [fd] 0. No file
    descriptor is opened and nothing is printed. The backend's [rig_init],
    if there is one, then runs on that handle, and whatever it returns the
    handle is returned. *)
Theorem rig_init_creates
    (RIG_PORT_SERIAL : Z) (FILPATHLEN : nat) (rig_base : list caps_t)
    (rig_model : Z) (w : World) (n : nat) :
  (exists c, c ∈ rig_base /\ Caps.rig_model c = rig_model) ->
  mem_left w = S n ->
  exists (i : nat) (c : caps_t) (w1 : World),
    rig_base !! i = Some c /\ Caps.rig_model c = rig_model /\
    heap w1 = <[next_loc w :=
                  mkRIG (Some i) (init_state RIG_PORT_SERIAL FILPATHLEN c)]> (heap w) /\
    open_fds w1 = open_fds w /\ stdout w1 = stdout w /\ mem_left w1 = n /\
    rig_init RIG_PORT_SERIAL FILPATHLEN rig_base rig_model w =
      match Caps.rig_init c with
      | None => Ret (Some (next_loc w)) w1
      | Some f => match f (next_loc w) w1 with
                  | Ret _ w2 => Ret (Some (next_loc w)) w2
                  | Fault => Fault
                  end
      end.
Proof.
  intros Hreg Hmem. destruct (registered_found rig_base rig_model Hreg) as (c & Hc & Hm).
  exists (lookup_from rig_model rig_base 0), c,
         (init_world RIG_PORT_SERIAL FILPATHLEN (lookup_from rig_model rig_base 0) c n w).
  repeat split; try assumption.
  apply rig_init_run; assumption.
Qed.

(** X2: [rig_init] returns [NULL] and leaves the world alone for a model
    that is not registered; when it does return a handle, the model is
    registered and [calloc] had memory to give. *)
Theorem rig_init_only_registered
    (RIG_PORT_SERIAL : Z) (FILPATHLEN : nat) (rig_base : list caps_t)
    (rig_model : Z) (w : World) :
  ((forall c, c ∈ rig_base -> Caps.rig_model c <> rig_model) ->
   rig_init RIG_PORT_SERIAL FILPATHLEN rig_base rig_model w = Ret None w) /\
  (forall l w',
     rig_init RIG_PORT_SERIAL FILPATHLEN rig_base rig_model w = Ret (Some l) w' ->
     (exists c, c ∈ rig_base /\ Caps.rig_model c = rig_model) /\
     mem_left w <> 0%nat).
Proof.
  split.
  - intros Hun. apply lookup_from_end in Hun. unfold rig_init. rewrite Hun. reflexivity.
  - intros l w' Hrun. unfold rig_init in Hrun.
    destruct (rig_base !! lookup_from rig_model rig_base 0) as [c |] eqn:E;
      [| discriminate Hrun].
    split.
    + exists c. split.
      * apply list_elem_of_lookup. eexists. exact E.
      * eapply lookup_from_found. exact E.
    + intros Hmem. unfold bind, calloc_RIG in Hrun. rewrite Hmem in Hrun.
      discriminate Hrun.
Qed.

Lemma rig_init_creates_witness :
  exists (i : nat) (c : caps_t) (w1 : World),
    Demo.base !! i = Some c /\ Caps.rig_model c = 102 /\
    heap w1 = <[next_loc (Demo.fresh 4) :=
                  mkRIG (Some i) (init_state Demo.PORT_SERIAL Demo.PATHLEN c)]>
                (heap (Demo.fresh 4)) /\
    open_fds w1 = open_fds (Demo.fresh 4) /\ stdout w1 = stdout (Demo.fresh 4) /\
    mem_left w1 = 3%nat /\
    rig_init Demo.PORT_SERIAL Demo.PATHLEN Demo.base 102 (Demo.fresh 4) =
      match Caps.rig_init c with
      | None => Ret (Some (next_loc (Demo.fresh 4))) w1
      | Some f => match f (next_loc (Demo.fresh 4)) w1 with
                  | Ret _ w2 => Ret (Some (next_loc (Demo.fresh 4))) w2
                  | Fault => Fault
                  end
      end.
Proof.
  apply (rig_init_creates Demo.PORT_SERIAL Demo.PATHLEN Demo.base 102
           (Demo.fresh 4) 3).
  - exists (Demo.tuned 102 "tuned"). split; [right; left | reflexivity].
  - reflexivity.
Defined.

Lemma rig_init_only_registered_witness :
  rig_init Demo.PORT_SERIAL Demo.PATHLEN Demo.base 7 (Demo.fresh 4)
    = Ret None (Demo.fresh 4) /\
  ((exists c, c ∈ Demo.base /\ Caps.rig_model c = 101) /\
   mem_left (Demo.fresh 4) <> 0%nat).
Proof.
  split.
  - apply (rig_init_only_registered Demo.PORT_SERIAL Demo.PATHLEN Demo.base 7
             (Demo.fresh 4)).
    intros c Hc. unfold Demo.base in Hc.
    apply elem_of_cons in Hc as [-> | Hc]; [discriminate |].
    apply elem_of_cons in Hc as [-> | Hc]; [discriminate |].
    inversion Hc.
  - apply (proj2 (rig_init_only_registered Demo.PORT_SERIAL Demo.PATHLEN Demo.base
                    101 (Demo.fresh 4))
                 1%positive (Demo.world_of (Demo.created 101))).
    vm_compute. reflexivity.
Defined.

(** ** A handle straight from [rig_init] *)

Section Fresh.

Variable RIG_PORT_SERIAL : Z.
Variable FILPATHLEN : nat.
Variable rig_base : list caps_t.
Variable rig_model : Z.
Variable w : World.
Variable n : nat.

Hypothesis Hregistered : exists c, c ∈ rig_base /\ Caps.rig_model c = rig_model.
Hypothesis Hmemory : mem_left w = S n.
Hypothesis Hplain :
  forall c, c ∈ rig_base -> Caps.rig_model c = rig_model -> Caps.rig_init c = None.

(** With no backend [rig_init] to run, the handle and the world are known. *)
Lemma fresh_handle :
  exists (i : nat) (c : caps_t),
    rig_base !! i = Some c /\ Caps.rig_model c = rig_model /\
    i = lookup_from rig_model rig_base 0 /\
    rig_init RIG_PORT_SERIAL FILPATHLEN rig_base rig_model w =
      Ret (Some (next_loc w)) (init_world RIG_PORT_SERIAL FILPATHLEN i c n w) /\
    heap (init_world RIG_PORT_SERIAL FILPATHLEN i c n w) !! next_loc w =
      Some (mkRIG (Some i) (init_state RIG_PORT_SERIAL FILPATHLEN c)).
Proof.
  destruct (registered_found rig_base rig_model Hregistered) as (c & Hc & Hm).
  exists (lookup_from rig_model rig_base 0), c.
  split; [exact Hc |]. split; [exact Hm |]. split; [reflexivity |]. split.
  - rewrite (rig_init_run RIG_PORT_SERIAL FILPATHLEN rig_base rig_model w n c Hc Hmemory).
    rewrite (Hplain c); [reflexivity | | exact Hm].
    apply list_elem_of_lookup. eexists. exact Hc.
  - unfold init_world. cbn [heap]. apply lookup_insert_eq.
Qed.

End Fresh.

(** X3: creating a handle and releasing it at once does not work: on the
    handle [rig_init] has just made (no backend [rig_init] involved), both
    [rig_close] and [rig_cleanup] answer [-RIG_EINVAL] and change nothing,
    so the handle stays allocated. *)
Theorem rig_init_then_release
    (RIG_PORT_SERIAL : Z) (FILPATHLEN : nat) (rig_base : list caps_t)
    (rig_model : Z) (w : World) (n : nat) :
  (exists c, c ∈ rig_base /\ Caps.rig_model c = rig_model) ->
  mem_left w = S n ->
  (forall c, c ∈ rig_base -> Caps.rig_model c = rig_model -> Caps.rig_init c = None) ->
  exists (l : loc) (w1 : World),
    rig_init RIG_PORT_SERIAL FILPATHLEN rig_base rig_model w = Ret (Some l) w1 /\
    rig_close rig_base (Some l) w1 = Ret (- RIG_EINVAL) w1 /\
    rig_cleanup rig_base (Some l) w1 = Ret (- RIG_EINVAL) w1 /\
    is_Some (heap w1 !! l).
Proof.
  intros Hreg Hmem Hplain.
  destruct (fresh_handle RIG_PORT_SERIAL FILPATHLEN rig_base rig_model w n
              Hreg Hmem Hplain) as (i & c & Hi & Hm & _ & Hinit & Hlive).
  eexists _, _. split; [exact Hinit |].
  destruct (close_cleanup_with_caps rig_base _ _ _ i Hlive eq_refl) as [Hclose Hclean].
  split; [exact Hclose |]. split; [exact Hclean |]. eexists. exact Hlive.
Qed.

Lemma rig_init_then_release_witness :
  exists (l : loc) (w1 : World),
    rig_init Demo.PORT_SERIAL Demo.PATHLEN Demo.base 102 (Demo.fresh 4)
      = Ret (Some l) w1 /\
    rig_close Demo.base (Some l) w1 = Ret (- RIG_EINVAL) w1 /\
    rig_cleanup Demo.base (Some l) w1 = Ret (- RIG_EINVAL) w1 /\
    is_Some (heap w1 !! l).
Proof.
  apply (rig_init_then_release Demo.PORT_SERIAL Demo.PATHLEN Demo.base 102
           (Demo.fresh 4) 3).
  - exists (Demo.tuned 102 "tuned"). split; [right; left | reflexivity].
  - reflexivity.
  - intros c Hc _. unfold Demo.base in Hc.
    apply elem_of_cons in Hc as [-> | Hc]; [reflexivity |].
    apply elem_of_cons in Hc as [-> | Hc]; [reflexivity |].
    inversion Hc.
Defined.

(** X4: [rig_init] and [rig_get_caps] scan the registry alike: for a
    registered model and with memory left, the descriptor pointer
    [rig_init] stores in the handle it allocates is the pointer
    [rig_get_caps] returns for that model, in whatever world it is called.
    The handle holds that pointer when the backend's [rig_init], if there is
    one, is run on it, and [rig_init] returns that handle. *)
Theorem rig_init_agrees_with_get_caps
    (RIG_PORT_SERIAL : Z) (FILPATHLEN : nat) (rig_base : list caps_t)
    (rig_model : Z) (w : World) (n : nat) :
  (exists c, c ∈ rig_base /\ Caps.rig_model c = rig_model) ->
  mem_left w = S n ->
  exists (i : nat) (c : caps_t) (w1 : World) (r : RIG),
    (forall w0, exists w0', rig_get_caps rig_base rig_model w0 = Ret (Some i) w0') /\
    rig_base !! i = Some c /\
    heap w1 !! next_loc w = Some r /\ caps r = Some i /\
    rig_init RIG_PORT_SERIAL FILPATHLEN rig_base rig_model w =
      match Caps.rig_init c with
      | None => Ret (Some (next_loc w)) w1
      | Some f => match f (next_loc w) w1 with
                  | Ret _ w2 => Ret (Some (next_loc w)) w2
                  | Fault => Fault
                  end
      end.
Proof.
  intros Hreg Hmem.
  destruct (registered_found rig_base rig_model Hreg) as (c & Hc & Hm).
  exists (lookup_from rig_model rig_base 0), c,
         (init_world RIG_PORT_SERIAL FILPATHLEN (lookup_from rig_model rig_base 0) c n w),
         (mkRIG (Some (lookup_from rig_model rig_base 0))
                (init_state RIG_PORT_SERIAL FILPATHLEN c)).
  split; [| split; [exact Hc | split; [| split; [reflexivity |]]]].
  - intros w0. unfold rig_get_caps. rewrite Hc. eexists. reflexivity.
  - unfold init_world. cbn [heap]. apply lookup_insert_eq.
  - apply rig_init_run; assumption.
Qed.

Lemma rig_init_agrees_with_get_caps_witness :
  exists (i : nat) (c : caps_t) (w1 : World) (r : RIG),
    (forall w0, exists w0', rig_get_caps Demo.base 102 w0 = Ret (Some i) w0') /\
    Demo.base !! i = Some c /\
    heap w1 !! next_loc (Demo.fresh 4) = Some r /\ caps r = Some i /\
    rig_init Demo.PORT_SERIAL Demo.PATHLEN Demo.base 102 (Demo.fresh 4) =
      match Caps.rig_init c with
      | None => Ret (Some (next_loc (Demo.fresh 4))) w1
      | Some f => match f (next_loc (Demo.fresh 4)) w1 with
                  | Ret _ w2 => Ret (Some (next_loc (Demo.fresh 4))) w2
                  | Fault => Fault
                  end
      end.
Proof.
  apply (rig_init_agrees_with_get_caps Demo.PORT_SERIAL Demo.PATHLEN Demo.base 102
           (Demo.fresh 4) 3).
  - exists (Demo.tuned 102 "tuned"). split; [right; left | reflexivity].
  - reflexivity.
Defined.

(** X5: on the handle [rig_init] has just made, calibration is off:
    [rig_set_freq] hands any frequency unchanged to the [set_freq] of the
    model's descriptor, and fails with [-RIG_ENIMPL] if it has none. *)
Theorem rig_init_then_set_freq
    (RIG_PORT_SERIAL : Z) (FILPATHLEN : nat) (rig_base : list caps_t)
    (rig_model : Z) (w : World) (n : nat) :
  (exists c, c ∈ rig_base /\ Caps.rig_model c = rig_model) ->
  mem_left w = S n ->
  (forall c, c ∈ rig_base -> Caps.rig_model c = rig_model -> Caps.rig_init c = None) ->
  exists (l : loc) (w1 : World) (c : caps_t),
    rig_init RIG_PORT_SERIAL FILPATHLEN rig_base rig_model w = Ret (Some l) w1 /\
    c ∈ rig_base /\ Caps.rig_model c = rig_model /\
    forall freq : freq_t,
      rig_set_freq rig_base (Some l) freq w1 =
        match Caps.set_freq c with
        | None => Ret (- RIG_ENIMPL) w1
        | Some f => f l freq w1
        end.
Proof.
  intros Hreg Hmem Hplain.
  destruct (fresh_handle RIG_PORT_SERIAL FILPATHLEN rig_base rig_model w n
              Hreg Hmem Hplain) as (i & c & Hi & Hm & _ & Hinit & Hlive).
  eexists _, _, c. split; [exact Hinit |].
  split; [apply list_elem_of_lookup; eexists; exact Hi |].
  split; [exact Hm |].
  intros freq.
  apply (rig_set_freq_delegates rig_base _ _ _ Hlive i c eq_refl Hi freq).
Qed.

Lemma rig_init_then_set_freq_witness :
  exists (l : loc) (w1 : World) (c : caps_t),
    rig_init Demo.PORT_SERIAL Demo.PATHLEN Demo.base 102 (Demo.fresh 4)
      = Ret (Some l) w1 /\
    c ∈ Demo.base /\ Caps.rig_model c = 102 /\
    forall freq : freq_t,
      rig_set_freq Demo.base (Some l) freq w1 =
        match Caps.set_freq c with
        | None => Ret (- RIG_ENIMPL) w1
        | Some f => f l freq w1
        end.
Proof.
  apply (rig_init_then_set_freq Demo.PORT_SERIAL Demo.PATHLEN Demo.base 102
           (Demo.fresh 4) 3).
  - exists (Demo.tuned 102 "tuned"). split; [right; left | reflexivity].
  - reflexivity.
  - intros c Hc _. unfold Demo.base in Hc.
    apply elem_of_cons in Hc as [-> | Hc]; [reflexivity |].
    apply elem_of_cons in Hc as [-> | Hc]; [reflexivity |].
    inversion Hc.
Defined.

(** ** [rig_open] *)

(** X6: [rig_open] fails with [-RIG_EINVAL] on a null handle, and with
    [-RIG_ENIMPL] on a handle whose port is not the serial kind; in both
    cases the transport is not called and the world is left as it was. *)
Theorem rig_open_not_serial
    (RIG_PORT_SERIAL : Z) (rig_base : list caps_t) (serial_open : loc -> M Z)
    (l : loc) (r : RIG) (w : World) :
  heap w !! l = Some r ->
  State.port_type (state r) <> RIG_PORT_SERIAL ->
  rig_open RIG_PORT_SERIAL rig_base serial_open (Some l) w = Ret (- RIG_ENIMPL) w /\
  rig_open RIG_PORT_SERIAL rig_base serial_open None w = Ret (- RIG_EINVAL) w.
Proof.
  intros Hlive Hport. split; [| reflexivity].
  unfold rig_open, bind, load. rewrite Hlive.
  apply Z.eqb_neq in Hport. rewrite Hport. reflexivity.
Qed.

Lemma rig_open_not_serial_witness :
  rig_open 1 Demo.base Demo.serial_open (Some 1%positive)
           (Demo.calibrated 0 double_zero)
    = Ret (- RIG_ENIMPL) (Demo.calibrated 0 double_zero) /\
  rig_open 1 Demo.base Demo.serial_open None (Demo.calibrated 0 double_zero)
    = Ret (- RIG_EINVAL) (Demo.calibrated 0 double_zero).
Proof.
  apply (rig_open_not_serial 1 Demo.base Demo.serial_open 1%positive
           (mkRIG (Some 0%nat) (State.set_vfo_comp double_zero State.zero))
           (Demo.calibrated 0 double_zero) eq_refl).
  discriminate.
Defined.

(** X7: once the transport has opened, [rig_open] returns [RIG_OK] whatever
    the backend's own [rig_open] returns, an error code included: that
    result is dropped, only the routine's effects stay. *)
Theorem rig_open_drops_backend_result
    (RIG_PORT_SERIAL : Z) (rig_base : list caps_t) (serial_open : loc -> M Z)
    (l : loc) (r r2 : RIG) (w w2 w3 : World) (i : nat) (c : caps_t)
    (f : loc -> M Z) (v : Z) :
  heap w !! l = Some r ->
  State.port_type (state r) = RIG_PORT_SERIAL ->
  serial_open l w = Ret 0 w2 ->
  heap w2 !! l = Some r2 -> caps r2 = Some i -> rig_base !! i = Some c ->
  Caps.rig_open c = Some f ->
  f l w2 = Ret v w3 ->
  rig_open RIG_PORT_SERIAL rig_base serial_open (Some l) w = Ret RIG_OK w3.
Proof.
  intros Hlive Hport Hserial Hlive2 Hcaps Hbase Hhook Hrun.
  unfold rig_open, bind, load.
  rewrite Hlive, Hport, Z.eqb_refl, Hserial. cbn [Z.eqb].
  rewrite Hlive2, Hcaps. unfold deref_caps. rewrite Hbase.
  unfold ret, call_hook, bind. rewrite Hhook, Hrun. reflexivity.
Qed.

(** X8: [rig_open] follows [rig->caps] without testing it: on a handle
    with no descriptor, once the transport has opened, the call is
    undefined, where the accessors would have answered [-RIG_EINVAL]. *)
Theorem rig_open_without_caps
    (RIG_PORT_SERIAL : Z) (rig_base : list caps_t) (serial_open : loc -> M Z)
    (l : loc) (r r2 : RIG) (w w2 : World) :
  heap w !! l = Some r ->
  State.port_type (state r) = RIG_PORT_SERIAL ->
  serial_open l w = Ret 0 w2 ->
  heap w2 !! l = Some r2 -> caps r2 = None ->
  rig_open RIG_PORT_SERIAL rig_base serial_open (Some l) w = Fault /\
  rig_set_mode rig_base (Some l) 0 w2 = Ret (- RIG_EINVAL) w2.
Proof.
  intros Hlive Hport Hserial Hlive2 Hcaps. split.
  - unfold rig_open, bind, load.
    rewrite Hlive, Hport, Z.eqb_refl, Hserial. cbn [Z.eqb].
    rewrite Hlive2, Hcaps. reflexivity.
  - unfold rig_set_mode, bind, load. rewrite Hlive2, Hcaps. reflexivity.
Qed.

(** ** [rig_close] and [rig_cleanup] *)

(** X9: whatever the handle and the world, [rig_close] and [rig_cleanup]
    either answer [-RIG_EINVAL] having changed nothing, or are undefined:
    they never return [RIG_OK], no descriptor is ever closed and no handle
    ever freed. *)
Theorem close_cleanup_never_succeed
    (rig_base : list caps_t) (rig : option loc) (w : World) :
  (rig_close rig_base rig w = Ret (- RIG_EINVAL) w \/
   rig_close rig_base rig w = Fault) /\
  (rig_cleanup rig_base rig w = Ret (- RIG_EINVAL) w \/
   rig_cleanup rig_base rig w = Fault).
Proof.
  destruct rig as [l |]; [| split; left; reflexivity].
  unfold rig_close, rig_cleanup, bind, load.
  destruct (heap w !! l) as [r |]; [| split; right; reflexivity].
  destruct (caps r) as [i |]; split; (left; reflexivity) || (right; reflexivity).
Qed.

Lemma rig_open_drops_backend_result_witness :
  Demo.open_refuses 1%positive
    (Demo.world_of (Demo.serial_open 1%positive (Demo.calibrated 2 double_zero)))
    = Ret (- RIG_ERJCTED)
          (Demo.world_of (Demo.serial_open 1%positive (Demo.calibrated 2 double_zero))) /\
  rig_open Demo.PORT_SERIAL Demo.base_answering Demo.serial_open (Some 1%positive)
           (Demo.calibrated 2 double_zero)
    = Ret RIG_OK
          (Demo.world_of (Demo.serial_open 1%positive (Demo.calibrated 2 double_zero))).
Proof.
  split; [reflexivity |].
  assert (Hserial : Demo.serial_open 1%positive (Demo.calibrated 2 double_zero)
                    = Ret 0 (Demo.world_of
                               (Demo.serial_open 1%positive
                                  (Demo.calibrated 2 double_zero))))
    by (vm_compute; reflexivity).
  assert (Hlive2 : heap (Demo.world_of
                           (Demo.serial_open 1%positive (Demo.calibrated 2 double_zero)))
                     !! 1%positive
                   = Some (mkRIG (Some 2%nat)
                             (State.set_fd 3 (State.set_vfo_comp double_zero State.zero))))
    by (vm_compute; reflexivity).
  apply (rig_open_drops_backend_result Demo.PORT_SERIAL Demo.base_answering
           Demo.serial_open 1%positive
           (mkRIG (Some 2%nat) (State.set_vfo_comp double_zero State.zero))
           (mkRIG (Some 2%nat)
              (State.set_fd 3 (State.set_vfo_comp double_zero State.zero)))
           (Demo.calibrated 2 double_zero)
           (Demo.world_of (Demo.serial_open 1%positive (Demo.calibrated 2 double_zero)))
           (Demo.world_of (Demo.serial_open 1%positive (Demo.calibrated 2 double_zero)))
           2%nat (Demo.hooked 103 "hooked") Demo.open_refuses (- RIG_ERJCTED)
           eq_refl eq_refl Hserial Hlive2 eq_refl eq_refl eq_refl eq_refl).
Defined.

Lemma rig_open_without_caps_witness :
  rig_open Demo.PORT_SERIAL Demo.base Demo.serial_open (Some 1%positive) Demo.orphan
    = Fault /\
  rig_set_mode Demo.base (Some 1%positive) 0
               (Demo.world_of (Demo.serial_open 1%positive Demo.orphan))
    = Ret (- RIG_EINVAL) (Demo.world_of (Demo.serial_open 1%positive Demo.orphan)).
Proof.
  assert (Hserial : Demo.serial_open 1%positive Demo.orphan
                    = Ret 0 (Demo.world_of (Demo.serial_open 1%positive Demo.orphan)))
    by (vm_compute; reflexivity).
  assert (Hlive2 : heap (Demo.world_of (Demo.serial_open 1%positive Demo.orphan))
                     !! 1%positive
                   = Some (mkRIG None (State.set_fd 3 State.zero)))
    by (vm_compute; reflexivity).
  apply (rig_open_without_caps Demo.PORT_SERIAL Demo.base Demo.serial_open
           1%positive (mkRIG None State.zero) (mkRIG None (State.set_fd 3 State.zero))
           Demo.orphan (Demo.world_of (Demo.serial_open 1%positive Demo.orphan))
           eq_refl eq_refl Hserial Hlive2 eq_refl).
Defined.

(** ** [rig_probe] *)

Section Probe.

Variable RIG_PORT_SERIAL : Z.
Variable FILPATHLEN : nat.
Variable rig_base : list caps_t.
Variable serial_open : loc -> M Z.
Variable port_path : string.

Lemma rig_init_no_memory (rig_model : Z) (w : World) :
  mem_left w = 0%nat ->
  rig_init RIG_PORT_SERIAL FILPATHLEN rig_base rig_model w = Ret None w.
Proof.
  intros Hmem. unfold rig_init.
  destruct (rig_base !! lookup_from rig_model rig_base 0); [| reflexivity].
  unfold bind, calloc_RIG. rewrite Hmem. reflexivity.
Qed.

(** Descriptors without a probe routine are passed over. *)
Lemma rig_probe_from_skips (l : list caps_t) (w : World) :
  (forall c, c ∈ l -> Caps.rig_probe c = None) ->
  rig_probe_from RIG_PORT_SERIAL FILPATHLEN rig_base serial_open port_path l w
    = Ret None w.
Proof.
  induction l as [| c l IH]; intros Hnone; [reflexivity |].
  cbn [rig_probe_from]. rewrite (Hnone c) by left.
  apply IH. intros c' Hc'. apply Hnone. right. exact Hc'.
Qed.

Lemma rig_probe_from_no_memory (l : list caps_t) (w : World) :
  mem_left w = 0%nat ->
  (exists c, c ∈ l /\ Caps.rig_probe c <> None) ->
  rig_probe_from RIG_PORT_SERIAL FILPATHLEN rig_base serial_open port_path l w
    = Fault.
Proof.
  intros Hmem. induction l as [| c l IH]; intros (c0 & Hin & Hprobe).
  - inversion Hin.
  - cbn [rig_probe_from]. destruct (Caps.rig_probe c) as [probe |] eqn:E.
    + unfold bind at 1. rewrite (rig_init_no_memory _ w Hmem). reflexivity.
    + apply IH. exists c0. split; [| exact Hprobe].
      apply elem_of_cons in Hin as [-> | Hin]; [congruence | exact Hin].
Qed.

(** One turn of the loop on a descriptor that has a probe routine, when
    every call in it returns. *)
Lemma rig_probe_from_turn
    (c : caps_t) (l : list caps_t) (probe : loc -> M Z) (q : loc)
    (w w1 w2 w3 w4 : World) (st found : Z) :
  Caps.rig_probe c = Some probe ->
  rig_init RIG_PORT_SERIAL FILPATHLEN rig_base (Caps.rig_model c) w
    = Ret (Some q) w1 ->
  modify_state q (State.set_rig_path (strncpy port_path FILPATHLEN)) w1
    = Ret tt w2 ->
  rig_open RIG_PORT_SERIAL rig_base serial_open (Some q) w2 = Ret st w3 ->
  probe q w3 = Ret found w4 ->
  rig_probe_from RIG_PORT_SERIAL FILPATHLEN rig_base serial_open port_path (c :: l) w
    = if found =? 0 then Ret (Some q) w4
      else (rig_close rig_base (Some q) ;;
            rig_cleanup rig_base (Some q) ;;
            rig_probe_from RIG_PORT_SERIAL FILPATHLEN rig_base serial_open
                           port_path l) w4.
Proof.
  intros Hprobe Hinit Hpath Hopen Hfound.
  cbn [rig_probe_from]. rewrite Hprobe.
  unfold bind at 1. rewrite Hinit.
  unfold bind at 1. rewrite Hpath.
  unfold bind at 1. rewrite Hopen.
  unfold bind at 1. rewrite Hfound.
  destruct (found =? 0); reflexivity.
Qed.

(** A run that returns a handle, taken apart: the registry entries before
    some descriptor [c] were gone through without success, and then the
    handle was made for [c]'s model, given the path, opened, and probed
    with [c]'s routine, which returned 0. *)
Lemma rig_probe_from_probed (l : list caps_t) (w w' : World) (p : loc) :
  rig_probe_from RIG_PORT_SERIAL FILPATHLEN rig_base serial_open port_path l w
    = Ret (Some p) w' ->
  exists (l1 l2 : list caps_t) (c : caps_t) (probe : loc -> M Z)
         (wa wb wc wd : World) (st : Z),
    l = l1 ++ c :: l2 /\
    rig_probe_from RIG_PORT_SERIAL FILPATHLEN rig_base serial_open port_path l1 w
      = Ret None wa /\
    Caps.rig_probe c = Some probe /\
    rig_init RIG_PORT_SERIAL FILPATHLEN rig_base (Caps.rig_model c) wa
      = Ret (Some p) wb /\
    modify_state p (State.set_rig_path (strncpy port_path FILPATHLEN)) wb
      = Ret tt wc /\
    rig_open RIG_PORT_SERIAL rig_base serial_open (Some p) wc = Ret st wd /\
    probe p wd = Ret 0 w'.
Proof.
  revert w. induction l as [| c l IH]; intros w Hrun; [discriminate Hrun |].
  destruct (Caps.rig_probe c) as [probe |] eqn:Eprobe.
  - cbn [rig_probe_from] in Hrun. rewrite Eprobe in Hrun.
    unfold bind at 1 in Hrun.
    destruct (rig_init RIG_PORT_SERIAL FILPATHLEN rig_base (Caps.rig_model c) w)
      as [rig w1 |] eqn:Einit; [| discriminate Hrun].
    destruct rig as [q |]; [| discriminate Hrun].
    unfold bind at 1 in Hrun.
    destruct (modify_state q (State.set_rig_path (strncpy port_path FILPATHLEN)) w1)
      as [[] w2 |] eqn:Epath; [| discriminate Hrun].
    unfold bind at 1 in Hrun.
    destruct (rig_open RIG_PORT_SERIAL rig_base serial_open (Some q) w2)
      as [st w3 |] eqn:Eopen; [| discriminate Hrun].
    unfold bind at 1 in Hrun.
    destruct (probe q w3) as [found w4 |] eqn:Efound; [| discriminate Hrun].
    destruct (Z.eqb_spec found 0) as [-> | Hne].
    + injection Hrun as <- <-.
      exists [], l, c, probe, w, w1, w2, w3, st.
      repeat split; assumption || reflexivity.
    + unfold bind at 1 in Hrun.
      destruct (rig_close rig_base (Some q) w4) as [vc w5 |] eqn:Eclose;
        [| discriminate Hrun].
      unfold bind at 1 in Hrun.
      destruct (rig_cleanup rig_base (Some q) w5) as [vr w6 |] eqn:Eclean;
        [| discriminate Hrun].
      destruct (IH w6 Hrun)
        as (l1 & l2 & c' & probe' & wa & wb & wc & wd & st' & Hl & Hpre & Hrest).
      exists (c :: l1), l2, c', probe', wa, wb, wc, wd, st'.
      split; [rewrite Hl; reflexivity |]. split; [| exact Hrest].
      rewrite (rig_probe_from_turn c l1 probe q w w1 w2 w3 w4 st found
                 Eprobe Einit Epath Eopen Efound).
      apply Z.eqb_neq in Hne. rewrite Hne.
      unfold bind at 1. rewrite Eclose. unfold bind at 1. rewrite Eclean.
      exact Hpre.
  - cbn [rig_probe_from] in Hrun. rewrite Eprobe in Hrun.
    destruct (IH w Hrun)
      as (l1 & l2 & c' & probe' & wa & wb & wc & wd & st' & Hl & Hpre & Hrest).
    exists (c :: l1), l2, c', probe', wa, wb, wc, wd, st'.
    split; [rewrite Hl; reflexivity |]. split; [| exact Hrest].
    cbn [rig_probe_from]. rewrite Eprobe. exact Hpre.
Qed.

End Probe.

(** X10: when no descriptor of the registry has a probe routine (an empty
    registry included), [rig_probe] returns [NULL] and does nothing at all:
    no handle is made, the transport is not touched. *)
Theorem rig_probe_no_candidates
    (RIG_PORT_SERIAL : Z) (FILPATHLEN : nat) (rig_base : list caps_t)
    (serial_open : loc -> M Z) (port_path : string) (w : World) :
  (forall c, c ∈ rig_base -> Caps.rig_probe c = None) ->
  rig_probe RIG_PORT_SERIAL FILPATHLEN rig_base serial_open port_path w = Ret None w.
Proof. intros Hnone. apply rig_probe_from_skips. exact Hnone. Qed.

Lemma rig_probe_no_candidates_witness :
  rig_probe Demo.PORT_SERIAL Demo.PATHLEN [Demo.bare 101 "bare" 5]
            Demo.serial_open "/dev/ttyS1" (Demo.fresh 4)
    = Ret None (Demo.fresh 4).
Proof.
  apply (rig_probe_no_candidates Demo.PORT_SERIAL Demo.PATHLEN
           [Demo.bare 101 "bare" 5] Demo.serial_open "/dev/ttyS1" (Demo.fresh 4)).
  intros c Hc. apply elem_of_cons in Hc as [-> | Hc]; [reflexivity | inversion Hc].
Defined.

(** X11: a handle [rig_probe] returns has passed a probe in that very run.
    The registry is [l1 ++ c :: l2] where the loop went through [l1] from
    the starting world without success; in the world that left, [rig_init]
    made the handle for [c]'s model; the port path was written into it;
    [rig_open] was called on it and returned; and then [c]'s probe routine
    returned 0 on it, leaving the world [rig_probe] returns. *)
Theorem rig_probe_returns_probed
    (RIG_PORT_SERIAL : Z) (FILPATHLEN : nat) (rig_base : list caps_t)
    (serial_open : loc -> M Z) (port_path : string) (w w' : World) (p : loc) :
  rig_probe RIG_PORT_SERIAL FILPATHLEN rig_base serial_open port_path w
    = Ret (Some p) w' ->
  exists (l1 l2 : list caps_t) (c : caps_t) (probe : loc -> M Z)
         (wa wb wc wd : World) (st : Z),
    rig_base = l1 ++ c :: l2 /\
    rig_probe_from RIG_PORT_SERIAL FILPATHLEN rig_base serial_open port_path l1 w
      = Ret None wa /\
    Caps.rig_probe c = Some probe /\
    rig_init RIG_PORT_SERIAL FILPATHLEN rig_base (Caps.rig_model c) wa
      = Ret (Some p) wb /\
    modify_state p (State.set_rig_path (strncpy port_path FILPATHLEN)) wb
      = Ret tt wc /\
    rig_open RIG_PORT_SERIAL rig_base serial_open (Some p) wc = Ret st wd /\
    probe p wd = Ret 0 w'.
Proof. apply rig_probe_from_probed. Qed.

(** X12: [rig_probe] writes the port path into the handle before it tests
    what [rig_init] returned: with no memory left and a descriptor to probe
    in the registry, the call is undefined instead of returning [NULL]. *)
Theorem rig_probe_no_memory
    (RIG_PORT_SERIAL : Z) (FILPATHLEN : nat) (rig_base : list caps_t)
    (serial_open : loc -> M Z) (port_path : string) (w : World) :
  mem_left w = 0%nat ->
  (exists c, c ∈ rig_base /\ Caps.rig_probe c <> None) ->
  rig_probe RIG_PORT_SERIAL FILPATHLEN rig_base serial_open port_path w = Fault.
Proof. intros Hmem Hcand. apply rig_probe_from_no_memory; assumption. Qed.

Lemma rig_probe_no_memory_witness :
  rig_probe Demo.PORT_SERIAL Demo.PATHLEN Demo.base Demo.serial_open
            "/dev/ttyS1" (Demo.fresh 0) = Fault.
Proof.
  apply (rig_probe_no_memory Demo.PORT_SERIAL Demo.PATHLEN Demo.base
           Demo.serial_open "/dev/ttyS1" (Demo.fresh 0) eq_refl).
  exists (Demo.tuned 102 "tuned"). split; [right; left | discriminate].
Defined.

Lemma rig_probe_returns_probed_witness :
  exists (l1 l2 : list caps_t) (c : caps_t) (probe : loc -> M Z)
         (wa wb wc wd : World) (st : Z),
    Demo.base_answering = l1 ++ c :: l2 /\
    rig_probe_from Demo.PORT_SERIAL Demo.PATHLEN Demo.base_answering
                   Demo.serial_open "/dev/ttyS1" l1 (Demo.fresh 4)
      = Ret None wa /\
    Caps.rig_probe c = Some probe /\
    rig_init Demo.PORT_SERIAL Demo.PATHLEN Demo.base_answering (Caps.rig_model c) wa
      = Ret (Some 2%positive) wb /\
    modify_state 2%positive
                 (State.set_rig_path (strncpy "/dev/ttyS1" Demo.PATHLEN)) wb
      = Ret tt wc /\
    rig_open Demo.PORT_SERIAL Demo.base_answering Demo.serial_open
             (Some 2%positive) wc = Ret st wd /\
    probe 2%positive wd
      = Ret 0 (Demo.world_of
                 (rig_probe Demo.PORT_SERIAL Demo.PATHLEN Demo.base_answering
                            Demo.serial_open "/dev/ttyS1" (Demo.fresh 4))).
Proof.
  apply (rig_probe_returns_probed Demo.PORT_SERIAL Demo.PATHLEN Demo.base_answering
           Demo.serial_open "/dev/ttyS1" (Demo.fresh 4)).
  vm_compute. reflexivity.
Defined.

(** ** [rig_has_func] on the flags an [int] holds *)

Lemma to_int_small (x : Z) : 0 <= x < 2 ^ (INT_BITS - 1) -> to_int x = x.
Proof.
  unfold to_int, INT_BITS. change (2 ^ (32 - 1)) with 2147483648.
  change (2 ^ 32) with 4294967296. intros Hx.
  rewrite Z.mod_small by lia.
  destruct (Z.ltb_spec x 2147483648); lia.
Qed.

(** X13: for a flag below [2^31], [rig_has_func] on a handle with a
    descriptor returns the value of [has_func & func] itself, which is not
    negative: for such flags the answer [-1] can only mean a null handle or
    a handle without descriptor. The world is left as it was. *)
Theorem rig_has_func_masked_value
    (rig_base : list caps_t) (w : World) (l : loc) (r : RIG) (i : nat)
    (c : caps_t) (func : Z) :
  heap w !! l = Some r -> caps r = Some i -> rig_base !! i = Some c ->
  0 <= func < 2 ^ (INT_BITS - 1) ->
  rig_has_func rig_base (Some l) func w = Ret (Z.land (Caps.has_func c) func) w /\
  0 <= Z.land (Caps.has_func c) func < 2 ^ (INT_BITS - 1).
Proof.
  intros Hlive Hcaps Hbase Hfunc.
  assert (Hland : 0 <= Z.land (Caps.has_func c) func < 2 ^ (INT_BITS - 1))
    by (apply land_below; [discriminate | exact Hfunc]).
  split; [| exact Hland].
  run_accessor. rewrite Hlive, Hcaps, Hbase. unfold ret.
  rewrite to_int_small by exact Hland. reflexivity.
Qed.

Lemma rig_has_func_masked_value_witness :
  rig_has_func Demo.base (Some 1%positive) 6 (Demo.calibrated 0 double_zero)
    = Ret (Z.land (Caps.has_func (Demo.bare 101 "bare" (2 ^ 32 + 5))) 6)
          (Demo.calibrated 0 double_zero) /\
  0 <= Z.land (Caps.has_func (Demo.bare 101 "bare" (2 ^ 32 + 5))) 6
    < 2 ^ (INT_BITS - 1).
Proof.
  apply (rig_has_func_masked_value Demo.base (Demo.calibrated 0 double_zero)
           1%positive
           (mkRIG (Some 0%nat) (State.set_vfo_comp double_zero State.zero))
           0%nat (Demo.bare 101 "bare" (2 ^ 32 + 5)) 6 eq_refl eq_refl eq_refl).
  unfold INT_BITS. lia.
Defined.

(** X14: the [-1] of [rig_has_func] is not always an error: when the low 32
    bits of [has_func & func] are all set, a handle with a descriptor gets
    [-1] too, the answer a null handle gets. *)
Theorem rig_has_func_sentinel_clash
    (rig_base : list caps_t) (w : World) (l : loc) (r : RIG) (i : nat)
    (c : caps_t) (func : Z) :
  heap w !! l = Some r -> caps r = Some i -> rig_base !! i = Some c ->
  Z.land (Caps.has_func c) func mod 2 ^ INT_BITS = 2 ^ INT_BITS - 1 ->
  rig_has_func rig_base (Some l) func w = Ret (-1) w /\
  rig_has_func rig_base None func w = Ret (-1) w.
Proof.
  intros Hlive Hcaps Hbase Hall. split; [| reflexivity].
  run_accessor. rewrite Hlive, Hcaps, Hbase. unfold ret, to_int.
  rewrite Hall. reflexivity.
Qed.

Lemma rig_has_func_sentinel_clash_witness :
  rig_has_func [Demo.bare 201 "all" (2 ^ 32 - 1)] (Some 1%positive) (2 ^ 32 - 1)
               (Demo.calibrated 0 double_zero)
    = Ret (-1) (Demo.calibrated 0 double_zero) /\
  rig_has_func [Demo.bare 201 "all" (2 ^ 32 - 1)] None (2 ^ 32 - 1)
               (Demo.calibrated 0 double_zero)
    = Ret (-1) (Demo.calibrated 0 double_zero).
Proof.
  apply (rig_has_func_sentinel_clash [Demo.bare 201 "all" (2 ^ 32 - 1)]
           (Demo.calibrated 0 double_zero) 1%positive
           (mkRIG (Some 0%nat) (State.set_vfo_comp double_zero State.zero))
           0%nat (Demo.bare 201 "all" (2 ^ 32 - 1)) (2 ^ 32 - 1)
           eq_refl eq_refl eq_refl).
  reflexivity.
Defined.

(** ** The descriptions tell the codes apart *)

Lemma rigerror_table_NoDup : NoDup rigerror_table.
Proof. refine (bool_decide_unpack _ _). vm_compute. exact I. Qed.

(** X16: no two codes share a description: if [rigerror] gives the same
    string for two codes, they are the same code. *)
Theorem rigerror_injective (a b : Z) (s : string) :
  rigerror a = Some s -> rigerror b = Some s -> a = b.
Proof.
  unfold rigerror. intros Ha Hb.
  destruct (Z.ltb_spec a 0) as [| Hage]; [discriminate Ha |].
  destruct (Z.ltb_spec b 0) as [| Hbge]; [discriminate Hb |].
  pose proof (NoDup_lookup _ _ _ _ rigerror_table_NoDup Ha Hb) as Heq.
  lia.
Qed.

Lemma rigerror_injective_witness :
  rigerror RIG_EIO = Some "IO error"%string /\ RIG_EIO = 6.
Proof.
  split; [reflexivity |].
  apply (rigerror_injective RIG_EIO 6 "IO error"); reflexivity.
Defined.

(** ** What [rig_get_caps] prints *)

(** X17: a successful [rig_get_caps] is not silent: it appends three calls
    of [printf] to the standard output, the model's name and its lowest and
    highest serial rates, in that order, and changes nothing else in the
    world. *)
Theorem rig_get_caps_prints (rig_base : list caps_t) (rig_model : Z) (w : World) :
  (exists c, c ∈ rig_base /\ Caps.rig_model c = rig_model) ->
  exists (i : nat) (c : caps_t) (w' : World),
    rig_get_caps rig_base rig_model w = Ret (Some i) w' /\
    rig_base !! i = Some c /\
    stdout w' = stdout w ++
      [ Printf_s "rig = %s \n" (Caps.model_name c);
        Printf_u "rig serial_rate_min = = %u \n" (Caps.serial_rate_min c);
        Printf_u "rig serial_rate_max = = %u \n" (Caps.serial_rate_max c) ] /\
    heap w' = heap w /\ open_fds w' = open_fds w /\ cells w' = cells w /\
    mem_left w' = mem_left w /\ next_loc w' = next_loc w.
Proof.
  intros Hreg. destruct (registered_found rig_base rig_model Hreg) as (c & Hc & _).
  exists (lookup_from rig_model rig_base 0), c. eexists.
  unfold rig_get_caps. rewrite Hc. unfold bind, printf, ret.
  split; [reflexivity |]. split; [reflexivity |].
  cbn [stdout heap open_fds cells mem_left next_loc].
  rewrite <- !app_assoc. repeat split.
Qed.

Lemma rig_get_caps_prints_witness :
  exists (i : nat) (c : caps_t) (w' : World),
    rig_get_caps Demo.base 102 (Demo.fresh 4) = Ret (Some i) w' /\
    Demo.base !! i = Some c /\
    stdout w' = stdout (Demo.fresh 4) ++
      [ Printf_s "rig = %s \n" (Caps.model_name c);
        Printf_u "rig serial_rate_min = = %u \n" (Caps.serial_rate_min c);
        Printf_u "rig serial_rate_max = = %u \n" (Caps.serial_rate_max c) ] /\
    heap w' = heap (Demo.fresh 4) /\ open_fds w' = open_fds (Demo.fresh 4) /\
    cells w' = cells (Demo.fresh 4) /\
    mem_left w' = mem_left (Demo.fresh 4) /\ next_loc w' = next_loc (Demo.fresh 4).
Proof.
  apply (rig_get_caps_prints Demo.base 102 (Demo.fresh 4)).
  exists (Demo.tuned 102 "tuned"). split; [right; left | reflexivity].
Defined.
